(** * minilogue-manipulation: the OSC settings logger and the command emitter

    A shallow embedding of [src/main.py] and [src/models.py].

    The program has two execution paths.  A background listener receives
    OSC messages and appends one CSV row per [/synth_settings] message
    (function [log_synth_settings]); the main path sends a bounded sequence
    of [/random] commands (the loop of [main]).  Both are written here in a
    small state-and-exception monad over a [world] that holds what the code
    can observe or change: the log file, the calls made to the logger, to
    the UDP client and to [time.sleep], and the answers of the environment
    (clock, I/O faults). *)

From Stdlib Require Import List String Ascii ZArith Lia Bool Arith.
Import ListNotations.
Local Open Scope string_scope.
Local Open Scope list_scope.

Set Implicit Arguments.

(** ** Python values and exceptions *)

(** The values an OSC argument list carries, and the strings the program
    builds itself.  A float is kept as the IEEE-754 single-precision bit
    pattern found on the wire; the program never computes with it. *)
Inductive pyval : Type :=
| PStr (s : string)
| PInt (z : Z)
| PFloat (bits : Z)
| PBool (b : bool)
| PNone.

(** The exception classes that the handlers of [main.py] tell apart.
    [IOError] is an alias of [OSError] in Python 3. *)
Inductive exn_class : Type :=
| FileNotFoundError
| OSError
| YAMLError
| ValidationError
| ValueError
| UnicodeEncodeError
| KeyboardInterrupt
| SystemExit.

Record exn : Type := Exn { exn_cls : exn_class; exn_msg : string }.

(** [isinstance(e, OSError)]: [FileNotFoundError] derives from [OSError]. *)
Definition is_OSError (e : exn) : bool :=
  match exn_cls e with
  | FileNotFoundError | OSError => true
  | _ => false
  end.

Definition is_FileNotFoundError (e : exn) : bool :=
  match exn_cls e with FileNotFoundError => true | _ => false end.

Definition is_YAMLError (e : exn) : bool :=
  match exn_cls e with YAMLError => true | _ => false end.

Definition is_KeyboardInterrupt (e : exn) : bool :=
  match exn_cls e with KeyboardInterrupt => true | _ => false end.

(** [isinstance(e, Exception)]: everything except the two classes that
    derive from [BaseException] directly. *)
Definition is_Exception (e : exn) : bool :=
  match exn_cls e with
  | KeyboardInterrupt | SystemExit => false
  | _ => true
  end.

(** ** Python dictionaries

    A [dict] keeps its keys in first-insertion order and holds each key
    once; assigning to a key that is present replaces the value in place. *)
Module Dict.

Definition t (V : Type) : Type := list (string * V).

Definition empty {V : Type} : t V := [].

(** [d[k] = v] *)
Fixpoint set {V : Type} (k : string) (v : V) (d : t V) : t V :=
  match d with
  | [] => [(k, v)]
  | (k', v') :: d' =>
      if String.eqb k k' then (k, v) :: d' else (k', v') :: set k v d'
  end.

(** [d.get(k)] *)
Fixpoint get {V : Type} (k : string) (d : t V) : option V :=
  match d with
  | [] => None
  | (k', v') :: d' => if String.eqb k k' then Some v' else get k d'
  end.

(** [d.get(k, default)] *)
Definition get_default {V : Type} (k : string) (default : V) (d : t V) : V :=
  match get k d with
  | Some v => v
  | None => default
  end.

(** [d.update(pairs)], also the unpacking [{**d, **pairs}]. *)
Definition update {V : Type} (d : t V) (pairs : list (string * V)) : t V :=
  fold_left (fun acc kv => set (fst kv) (snd kv) acc) pairs d.

(** [dict(pairs)] *)
Definition of_pairs {V : Type} (pairs : list (string * V)) : t V :=
  update empty pairs.

(** [list(d.keys())] and [list(d.values())] *)
Definition keys {V : Type} (d : t V) : list string := map fst d.
Definition values {V : Type} (d : t V) : list V := map snd d.

End Dict.

(** ** Configuration ([models.py]) *)

Record Config : Type := {
  synth_params : list string;
  max_ip : string;
  max_send_port : Z;
  max_receive_port : Z;
  max_randomizations : Z;
  log_file_path : string
}.

(** ** The world and its events *)

Inductive level : Type := DEBUG | INFO | ERROR.

(** An argument of a logger call, before [%]-formatting. *)
Inductive log_arg : Type :=
| LVal (v : pyval)
| LExn (e : exn)
| LDict (d : Dict.t pyval).

(** What the process does to the outside, in program order. *)
Inductive event : Type :=
| EvLog (lvl : level) (fmt : string) (args : list log_arg)
| EvSend (address : string) (value : Z)
| EvSleep (milliseconds : Z).

(** What one write leaves in the log file.  The cells are the fields
    handed to the CSV writer; the kind records which method of
    [csv.DictWriter] emitted the line ([writeheader] or [writerow]) and is
    not part of the text.  A [CutLine] is a line of which only a part of
    the text reached the file: at least one character and not the line
    end, so that what is written next goes on in the same line of text. *)
Inductive line_kind : Type := HeaderLine | DataLine | CutLine.

Record csv_line : Type := Line { line_kind_of : line_kind; cells : list pyval }.

(** A fault raised by a file operation: the operating system refuses it
    and nothing is written ([OSError]), the text cannot be encoded
    ([UnicodeEncodeError]), or the operating system writes a part of the
    text and refuses the rest ([OSError] again: a full disk, a size
    limit). *)
Inductive io_fault : Type :=
| DiskFault (msg : string)
| EncodeFault (msg : string)
| ShortWrite (msg : string).

Definition fault_exn (f : io_fault) : exn :=
  match f with
  | DiskFault m => Exn OSError m
  | EncodeFault m => Exn UnicodeEncodeError m
  | ShortWrite m => Exn OSError m
  end.

(** How a thread ended, with what it logged and what it left in the file. *)
Inductive outcome (A : Type) : Type :=
| Returned (a : A)
| Raised (e : exn).
Arguments Returned {A} a.
Arguments Raised {A} e.

Record thread_result : Type := {
  th_outcome : outcome unit;
  th_trace : list event;
  th_file : list csv_line
}.

Record world : Type := {
  w_trace : list event;             (* calls to logger, client and sleep *)
  w_file : list csv_line;           (* content of the log file *)
  w_now : string;                   (* what [time.strftime] returns *)
  w_io_faults : list (option io_fault);
                                    (* answers to the coming file operations *)
  w_thread : option thread_result   (* the background thread, once started *)
}.

(** ** The monad: state over [world], with Python exceptions *)

Definition IO (A : Type) : Type := world -> outcome A * world.

Definition ret {A : Type} (a : A) : IO A := fun w => (Returned a, w).

Definition bind {A B : Type} (m : IO A) (k : A -> IO B) : IO B :=
  fun w =>
    match m w with
    | (Returned a, w') => k a w'
    | (Raised e, w') => (Raised e, w')
    end.

Definition raise {A : Type} (e : exn) : IO A := fun w => (Raised e, w).

Notation "x <- m ;; k" := (bind m (fun x => k))
  (at level 61, m at next level, right associativity).
Notation "m ;; k" := (bind m (fun _ => k))
  (at level 61, right associativity).

(** [try: body  except ...:] where [handlers e] is the first clause that
    matches [e], if any; an exception no clause matches goes on. *)
Definition try_except {A : Type} (body : IO A)
    (handlers : exn -> option (IO A)) : IO A :=
  fun w =>
    match body w with
    | (Returned a, w') => (Returned a, w')
    | (Raised e, w') =>
        match handlers e with
        | Some h => h w'
        | None => (Raised e, w')
        end
    end.

(** [for x in xs: body(x)] *)
Fixpoint for_each {A : Type} (xs : list A) (body : A -> IO unit) : IO unit :=
  match xs with
  | [] => ret tt
  | x :: xs' => body x ;; for_each xs' body
  end.

(** [range(n)] for an integer [n]: empty when [n <= 0]. *)
Definition range (n : Z) : list nat := seq 0 (Z.to_nat n).

(** *** Primitive operations *)

Definition emit (ev : event) : IO unit :=
  fun w =>
    (Returned tt,
     {| w_trace := w_trace w ++ [ev]; w_file := w_file w; w_now := w_now w;
        w_io_faults := w_io_faults w; w_thread := w_thread w |}).

Definition logger (lvl : level) (fmt : string) (args : list log_arg) : IO unit :=
  emit (EvLog lvl fmt args).

Definition sleep (milliseconds : Z) : IO unit := emit (EvSleep milliseconds).

(** [time.strftime("%Y-%m-%d %H:%M:%S")] *)
Definition strftime : IO string := fun w => (Returned (w_now w), w).

(** A file operation asks the environment whether it goes through. *)
Definition io_check : IO unit :=
  fun w =>
    match w_io_faults w with
    | Some f :: rest =>
        (Raised (fault_exn f),
         {| w_trace := w_trace w; w_file := w_file w; w_now := w_now w;
            w_io_faults := rest; w_thread := w_thread w |})
    | None :: rest =>
        (Returned tt,
         {| w_trace := w_trace w; w_file := w_file w; w_now := w_now w;
            w_io_faults := rest; w_thread := w_thread w |})
    | [] => (Returned tt, w)
    end.

(** [open(path, "a", newline="")]: the file is created when missing and
    the position is its end.  The model has the one log file.  Opening
    writes nothing, whatever the fault. *)
Definition open_append (path : string) : IO unit := io_check.

(** [f.tell()] right after opening for append: the size of the file, which
    is zero exactly when the file has no line (every line written below,
    whole or cut, has at least one character). *)
Definition tell : IO Z := fun w => (Returned (Z.of_nat (List.length (w_file w))), w).

(** The cut form of a line: its cells, without its end. *)
Definition cut_of (l : csv_line) : csv_line := Line CutLine (cells l).

Definition append_line (l : csv_line) : IO unit :=
  fun w =>
    (Returned tt,
     {| w_trace := w_trace w; w_file := w_file w ++ [l]; w_now := w_now w;
        w_io_faults := w_io_faults w; w_thread := w_thread w |}).

(** One [write] of the underlying CSV writer.  Python encodes the text at
    the write and keeps it in a buffer, which goes to the file when the
    [with] block closes it; a close that fails has written a part of the
    buffered text, possibly none of it, and raises [OSError].  The states
    of the file this can leave are those of writes that reach the file one
    by one, each of which goes through, is refused, or is cut short, and
    this is how the writes are taken: a write cut short leaves the cut
    line in the file and raises. *)
Definition write_line (l : csv_line) : IO unit :=
  fun w =>
    match w_io_faults w with
    | Some (ShortWrite msg) :: rest =>
        (Raised (fault_exn (ShortWrite msg)),
         {| w_trace := w_trace w; w_file := w_file w ++ [cut_of l];
            w_now := w_now w; w_io_faults := rest; w_thread := w_thread w |})
    | _ => (io_check ;; append_line l) w
    end.

(** ** [csv.DictWriter] (standard library, default [restval=""] and
    [extrasaction="raise"]) *)
Module DictWriter.

Definition restval : pyval := PStr "".

Definition mem (k : string) (ks : list string) : bool :=
  existsb (String.eqb k) ks.

(** [_dict_to_list]: keys outside the field names are refused, fields
    without a key get [restval], and the cells follow the field names. *)
Definition _dict_to_list (fieldnames : list string) (rowdict : Dict.t pyval)
  : IO (list pyval) :=
  let wrong_fields :=
    filter (fun k => negb (mem k fieldnames)) (Dict.keys rowdict) in
  match wrong_fields with
  | _ :: _ => raise (Exn ValueError "dict contains fields not in fieldnames")
  | [] => ret (map (fun k => Dict.get_default k restval rowdict) fieldnames)
  end.

Definition writerow (fieldnames : list string) (rowdict : Dict.t pyval)
  : IO unit :=
  row <- _dict_to_list fieldnames rowdict ;;
  write_line (Line DataLine row).

Definition writeheader (fieldnames : list string) : IO unit :=
  let header :=
    Dict.of_pairs (combine fieldnames (map PStr fieldnames)) in
  row <- _dict_to_list fieldnames header ;;
  write_line (Line HeaderLine row).

End DictWriter.

(** ** [log_synth_settings] ([main.py], lines 45-72) *)

(** [list(args)[1:]] *)
Definition settings_of (args : list pyval) : list pyval := skipn 1 args.

(** [dict(zip(config.synth_params, settings))] *)
Definition settings_dict (config : Config) (args : list pyval) : Dict.t pyval :=
  Dict.of_pairs (combine (synth_params config) (settings_of args)).

(** [["Timestamp"] + config.synth_params] *)
Definition fieldnames (config : Config) : list string :=
  "Timestamp" :: synth_params config.

(** [{"Timestamp": timestamp, **settings_dict}] *)
Definition rowdict (timestamp : string) (d : Dict.t pyval) : Dict.t pyval :=
  Dict.update [("Timestamp", PStr timestamp)] d.

Definition log_synth_settings (address : string) (args : list pyval)
    (config : Config) : IO unit :=
  try_except
    (timestamp <- strftime ;;
     let settings_dict := settings_dict config args in
     (open_append (log_file_path config) ;;
      pos <- tell ;;
      (if (pos =? 0)%Z
       then DictWriter.writeheader (fieldnames config)
       else ret tt) ;;
      DictWriter.writerow (fieldnames config) (rowdict timestamp settings_dict)) ;;
     logger DEBUG "Logged synth settings: %s" [LDict settings_dict])
    (fun e =>
       if is_OSError e then
         Some (logger ERROR "Failed to write to %s: %s"
                 [LVal (PStr (log_file_path config)); LExn e])
       else if is_Exception e then
         Some (logger ERROR "Unexpected error while logging synth settings: %s"
                 [LExn e])
       else None).

(** ** The inbound listener ([start_osc_server], lines 75-102) *)

(** A message as the dispatcher is handed it, and the conditions under
    which it is handled (the clock, and the answers the file operations of
    its handler will get).  A datagram carries one message or a bundle of
    messages; the library unpacks a bundle and hands its messages over one
    by one, so that a bundle shows here as several messages in a row.
    The library reads the address of an incoming message as a pattern
    ([*], [?] and the like), which is not interpreted here: [in_pattern]
    says whether it finds that the pattern selects the mapped route. *)
Record inbound : Type := {
  in_address : string;
  in_args : list pyval;
  in_time : string;
  in_faults : list (option io_fault);
  in_pattern : bool
}.

Definition synth_settings_route : string := "/synth_settings".

(** The dispatcher built by [start_osc_server]: one route, mapped to
    [lambda addr, *args: log_synth_settings(addr, *args, config=config)],
    as it answers an address that is no pattern: the address of the route
    gets the handler, any other one is ignored. *)
Definition dispatch (config : Config) (address : string) (args : list pyval)
  : IO unit :=
  if String.eqb address synth_settings_route
  then log_synth_settings address args config
  else ret tt.

(** What the library does with a message: the handler is called when the
    address, read as a pattern, selects the route, and in any case when it
    is the route itself. *)
Definition deliver (config : Config) (m : inbound) : IO unit :=
  if in_pattern m
  then log_synth_settings (in_address m) (in_args m) config
  else dispatch config (in_address m) (in_args m).

Definition arrive (m : inbound) : IO unit :=
  fun w =>
    (Returned tt,
     {| w_trace := w_trace w; w_file := w_file w; w_now := in_time m;
        w_io_faults := in_faults m; w_thread := w_thread w |}).

(** [server.serve_forever()], followed along the messages received so
    far.  The library reports an exception of a handler and keeps serving;
    here the loop would stop instead, so that continued service is owed to
    the handler alone. *)
Definition serve_forever (config : Config) (received : list inbound) : IO unit :=
  for_each received (fun m => arrive m ;; deliver config m).

(** The answers of the environment to one run of the process. *)
Record env : Type := {
  env_config : outcome Config;     (* reading and validating config.yml *)
  env_client : option exn;         (* [SimpleUDPClient(...)] *)
  env_bind : option exn;           (* [BlockingOSCUDPServer(...)]: the bind *)
  env_inbound : list inbound;      (* messages the listener receives *)
  env_random : nat -> Z;           (* the generator's draw in iteration i *)
  env_send : nat -> option exn     (* the fate of the send in iteration i *)
}.

Definition fallible (r : option exn) : IO unit :=
  match r with
  | Some x => raise x
  | None => ret tt
  end.

Definition start_osc_server (e : env) (config : Config) : IO unit :=
  logger INFO "Starting OSC Server..." [] ;;
  try_except
    (fallible (env_bind e) ;;
     logger INFO "Listening on %s:%s for synth settings"
       [LVal (PStr (max_ip config)); LVal (PInt (max_receive_port config))] ;;
     serve_forever config (env_inbound e))
    (fun x =>
       if is_OSError x then
         Some (logger ERROR "Failed to start OSC server: %s" [LExn x] ;;
               raise x)
       else None).

(** ** The process orchestrator and the command emitter ([main]) *)

(** [load_config] (lines 22-42). *)
Definition load_config (e : env) : IO Config :=
  try_except
    (match env_config e with
     | Returned config => ret config
     | Raised x => raise x
     end)
    (fun x =>
       if is_FileNotFoundError x then
         Some (logger ERROR "Config file 'config.yml' not found" [] ;; raise x)
       else if is_YAMLError x then
         Some (logger ERROR "Error parsing config file: %s" [LExn x] ;;
               raise x)
       else None).

(** [threading.Thread(target=..., daemon=True).start()]: the target runs
    on its own path.  What it raises ends that thread and does not reach
    the thread that started it; its log records are kept apart from the
    starter's, since their interleaving is not determined, and so is the
    log file, which only the target writes. *)
Definition Thread_start (target : IO unit) : IO unit :=
  fun w =>
    let '(o, w') :=
      target {| w_trace := []; w_file := w_file w; w_now := w_now w;
                w_io_faults := w_io_faults w; w_thread := None |} in
    (Returned tt,
     {| w_trace := w_trace w; w_file := w_file w; w_now := w_now w;
        w_io_faults := w_io_faults w;
        w_thread := Some {| th_outcome := o; th_trace := w_trace w';
                            th_file := w_file w' |} |}).

(** [random.randint(a, b)] on the generator's draw: an integer of [a..b]. *)
Definition randint (a b : Z) (draw : Z) : Z := (a + draw mod (b - a + 1))%Z.

(** [client.send_message(address, value)] in iteration [i]. *)
Definition send_message (e : env) (i : nat) (address : string) (value : Z)
  : IO unit :=
  emit (EvSend address value) ;;
  fallible (env_send e i).

(** The body of the loop of [main] (lines 118-129). *)
Definition emit_once (e : env) (config : Config) (i : nat) : IO unit :=
  logger INFO "Sending Randomization Command to Max... (iteration %d/%d)"
    [LVal (PInt (Z.of_nat i + 1)); LVal (PInt (max_randomizations config))] ;;
  let random_value := randint 1 100 (env_random e i) in
  try_except
    (send_message e i "/random" random_value ;;
     sleep 10)
    (fun x =>
       if is_Exception x then
         Some (logger ERROR "Failed to send OSC message: %s" [LExn x])
       else None).

(** The loop of [main] (lines 117-129). *)
Definition emitter_loop (e : env) (config : Config) : IO unit :=
  for_each (range (max_randomizations config)) (emit_once e config).

Definition main (e : env) : IO unit :=
  try_except
    (config <- load_config e ;;
     fallible (env_client e) ;;
     Thread_start (start_osc_server e config) ;;
     emitter_loop e config ;;
     logger INFO "Waiting for final responses..." [] ;;
     sleep 500 ;;
     logger INFO "Done." [])
    (fun x =>
       if is_KeyboardInterrupt x then
         Some (logger INFO "Shutting down application..." [])
       else if is_Exception x then
         Some (logger ERROR "Application error: %s" [LExn x] ;; raise x)
       else None).

(** The exit status of [python main.py]: zero when [main] returns, and
    not zero when an exception leaves it. *)
Definition exit_status (o : outcome unit) : Z :=
  match o with
  | Returned _ => 0%Z
  | Raised _ => 1%Z
  end.

(** ** Observations on traces and files *)

Definition is_send (ev : event) : bool :=
  match ev with EvSend _ _ => true | _ => false end.

Definition sends (tr : list event) : list event := filter is_send tr.

Definition is_header (l : csv_line) : bool :=
  match line_kind_of l with HeaderLine => true | _ => false end.

Definition header_count (f : list csv_line) : nat :=
  List.length (filter is_header f).

(** The two lines [log_synth_settings] can write. *)
Definition header_line (config : Config) : csv_line :=
  Line HeaderLine (map PStr (fieldnames config)).

Definition data_line (config : Config) (timestamp : string) (args : list pyval)
  : csv_line :=
  Line DataLine
    (map (fun k => Dict.get_default k DictWriter.restval
                     (rowdict timestamp (settings_dict config args)))
         (fieldnames config)).

(** A world with nothing in it yet. *)
Definition fresh : world :=
  {| w_trace := []; w_file := []; w_now := ""; w_io_faults := [];
     w_thread := None |}.

(** *** What one call of the handler meets and leaves *)

Definition is_empty (f : list csv_line) : bool :=
  match f with [] => true | _ :: _ => false end.

(** The fault, if any, that a call of [log_synth_settings] runs into when
    the file operations get the answers [fs]: the first answer goes to
    [open], the next to the first write, and a third one is asked only
    when the file was empty and the header went through. *)
Definition faulted (file : list csv_line) (fs : list (option io_fault))
  : option io_fault :=
  match fs with
  | Some f :: _ => Some f
  | None :: Some f :: _ => Some f
  | None :: None :: Some f :: _ => if is_empty file then Some f else None
  | _ => None
  end.

(** The lines a call adds to [file] when nothing fails. *)
Definition new_lines (config : Config) (file : list csv_line)
    (timestamp : string) (args : list pyval) : list csv_line :=
  (if is_empty file then [header_line config] else []) ++
  [data_line config timestamp args].

(** What a call that runs into a fault can have added to [file]: nothing;
    on an empty file the header, whole or cut, or the header and the cut
    row; on a file that has lines the cut row. *)
Definition left_by_fault (config : Config) (file : list csv_line)
    (timestamp : string) (args : list pyval) (left : list csv_line) : Prop :=
  left = [] \/
  (file = [] /\
   (left = [header_line config] \/
    left = [cut_of (header_line config)] \/
    left = [header_line config; cut_of (data_line config timestamp args)])) \/
  (file <> [] /\ left = [cut_of (data_line config timestamp args)]).

(** The records the handler hands to the logger. *)
Definition debug_record (config : Config) (args : list pyval) : event :=
  EvLog DEBUG "Logged synth settings: %s" [LDict (settings_dict config args)].

Definition fault_record (config : Config) (f : io_fault) : event :=
  match f with
  | DiskFault _ =>
      EvLog ERROR "Failed to write to %s: %s"
        [LVal (PStr (log_file_path config)); LExn (fault_exn f)]
  | EncodeFault _ =>
      EvLog ERROR "Unexpected error while logging synth settings: %s"
        [LExn (fault_exn f)]
  | ShortWrite _ =>
      EvLog ERROR "Failed to write to %s: %s"
        [LVal (PStr (log_file_path config)); LExn (fault_exn f)]
  end.

Definition is_data (l : csv_line) : bool :=
  match line_kind_of l with DataLine => true | _ => false end.

Definition data_lines (f : list csv_line) : list csv_line := filter is_data f.

(** *** What the listener does with one message *)

(** No file operation fails. *)
Definition quiet (fs : list (option io_fault)) : Prop :=
  Forall (fun x => x = None) fs.

(** A message on the handled route that meets no fault. *)
Definition appended_ok (m : inbound) : Prop :=
  in_address m = synth_settings_route /\ quiet (in_faults m).

(** The data row of a message. *)
Definition line_of (config : Config) (m : inbound) : csv_line :=
  data_line config (in_time m) (in_args m).

(** The world after the listener has handled [m]. *)
Definition handled (config : Config) (m : inbound) (w : world) : world :=
  snd ((arrive m ;; deliver config m) w).

(** *** What the emitter leaves in the trace *)

Definition add_events (evs : list event) (w : world) : world :=
  {| w_trace := w_trace w ++ evs; w_file := w_file w; w_now := w_now w;
     w_io_faults := w_io_faults w; w_thread := w_thread w |}.

(** The send of iteration [i], as it shows in the trace. *)
Definition send_event (e : env) (i : nat) : event :=
  EvSend "/random" (randint 1 100 (env_random e i)).

(** The events of iteration [i] when its send returns or raises an
    [Exception]: the announcement, the send, and then either the wait or
    the error record. *)
Definition iteration_events (e : env) (config : Config) (i : nat)
  : list event :=
  [EvLog INFO "Sending Randomization Command to Max... (iteration %d/%d)"
     [LVal (PInt (Z.of_nat i + 1)); LVal (PInt (max_randomizations config))];
   send_event e i] ++
  match env_send e i with
  | None => [EvSleep 10]
  | Some x => [EvLog ERROR "Failed to send OSC message: %s" [LExn x]]
  end.

(** The end of [main] after the loop. *)
Definition drain_events : list event :=
  [EvLog INFO "Waiting for final responses..." []; EvSleep 500;
   EvLog INFO "Done." []].

(** No send of the loop is cut short by an exception outside [Exception]
    (an interrupt), which the handler in the loop does not catch. *)
Definition uninterrupted (e : env) (config : Config) : Prop :=
  forall i x, In i (range (max_randomizations config)) ->
              env_send e i = Some x -> is_Exception x = true.

(** The listener thread started by [main] from the world [w]. *)
Definition listener_thread (e : env) (config : Config) (w : world)
  : thread_result :=
  let '(o, w') :=
    start_osc_server e config
      {| w_trace := []; w_file := w_file w; w_now := w_now w;
         w_io_faults := w_io_faults w; w_thread := None |} in
  {| th_outcome := o; th_trace := w_trace w'; th_file := w_file w' |}.

(** Whether the library hands the message to the handler. *)
Definition selected (m : inbound) : bool :=
  in_pattern m || String.eqb (in_address m) synth_settings_route.

(** No file operation is cut short. *)
Definition no_short_write (fs : list (option io_fault)) : Prop :=
  forall msg, ~ In (Some (ShortWrite msg)) fs.

(** *** Sample configurations and worlds *)

(** The configuration of the end-to-end scenario: two parameters, three
    randomizations. *)
Definition demo_config : Config :=
  {| synth_params := ["freq"; "amp"]; max_ip := "127.0.0.1";
     max_send_port := 7400; max_receive_port := 7401;
     max_randomizations := 3; log_file_path := "synth_log.csv" |}.

Definition with_params (names : list string) : Config :=
  {| synth_params := names; max_ip := max_ip demo_config;
     max_send_port := max_send_port demo_config;
     max_receive_port := max_receive_port demo_config;
     max_randomizations := max_randomizations demo_config;
     log_file_path := log_file_path demo_config |}.

Definition with_randomizations (n : Z) : Config :=
  {| synth_params := synth_params demo_config; max_ip := max_ip demo_config;
     max_send_port := max_send_port demo_config;
     max_receive_port := max_receive_port demo_config;
     max_randomizations := n;
     log_file_path := log_file_path demo_config |}.

(** A world whose clock shows [now], whose log file holds [file] and whose
    file operations will get the answers [fs]. *)
Definition world_at (now : string) (file : list csv_line)
    (fs : list (option io_fault)) : world :=
  {| w_trace := []; w_file := file; w_now := now; w_io_faults := fs;
     w_thread := None |}.

(** The message of the end-to-end scenario: [true, 440, 0.8], the last
    one as the single-precision pattern of 0.8. *)
Definition demo_args : list pyval := [PBool true; PInt 440; PFloat 1061997773].

Definition noon : string := "2024-05-01 12:00:00".

(** An environment in which the configuration loads and the client is
    built; the generator's draws are fixed. *)
Definition env_of (config : Config) (bind_result : option exn)
    (send_result : nat -> option exn) : env :=
  {| env_config := Returned config; env_client := None;
     env_bind := bind_result; env_inbound := [];
     env_random := fun i => (Z.of_nat i * 37 + 99)%Z;
     env_send := send_result |}.

(** A message and its successor, both handled without a fault. *)
Definition first_message : inbound :=
  {| in_address := "/synth_settings"; in_args := demo_args;
     in_time := noon; in_faults := []; in_pattern := false |}.

Definition second_message : inbound :=
  {| in_address := "/synth_settings";
     in_args := [PBool true; PInt 220; PFloat 1056964608];
     in_time := "2024-05-01 12:00:01"; in_faults := [None; None];
     in_pattern := false |}.

(** A message during whose handling the log file cannot be opened. *)
Definition refused_message : inbound :=
  {| in_address := "/synth_settings"; in_args := demo_args;
     in_time := "2024-05-01 11:59:59";
     in_faults := [Some (DiskFault "Permission denied")];
     in_pattern := false |}.

(** A message whose row is cut short by a full disk, after the header
    went through. *)
Definition cut_short_message : inbound :=
  {| in_address := "/synth_settings"; in_args := demo_args;
     in_time := "2024-05-01 11:59:57";
     in_faults := [None; None; Some (ShortWrite "No space left on device")];
     in_pattern := false |}.

(** A parameter name configured twice, and a message for it. *)
Definition twice_config : Config := with_params ["a"; "a"].
Definition twice_args : list pyval := [PBool true; PInt 1; PInt 2].

(** A parameter that is itself named Timestamp. *)
Definition stamp_config : Config := with_params ["Timestamp"; "freq"].

(** The second send fails, the others go through. *)
Definition second_send_fails (i : nat) : option exn :=
  if Nat.eqb i 1 then Some (Exn OSError "Network is unreachable") else None.

(** The end-to-end scenario: the listener binds and receives one message,
    every send goes through. *)
Definition scenario_env : env :=
  {| env_config := Returned demo_config; env_client := None;
     env_bind := None; env_inbound := [first_message];
     env_random := fun i => Z.of_nat i; env_send := fun _ => None |}.

(** One randomization, whose send fails. *)
Definition lone_failure_env : env :=
  env_of (with_randomizations 1) None
    (fun _ => Some (Exn OSError "Network is unreachable")).

(** The listener cannot bind; every send goes through. *)
Definition bind_fails_env : env :=
  env_of demo_config (Some (Exn OSError "Address already in use"))
    (fun _ => None).

(** *** Further observations *)

(** The announcement that opens iteration [i] of the loop of [main]. *)
Definition announce (config : Config) (i : nat) : event :=
  EvLog INFO "Sending Randomization Command to Max... (iteration %d/%d)"
    [LVal (PInt (Z.of_nat i + 1)); LVal (PInt (max_randomizations config))].

(** The records [load_config] logs itself for the exception [x]. *)
Definition load_failure_records (x : exn) : list event :=
  if is_FileNotFoundError x then
    [EvLog ERROR "Config file 'config.yml' not found" []]
  else if is_YAMLError x then
    [EvLog ERROR "Error parsing config file: %s" [LExn x]]
  else [].

(** The time spent in [time.sleep], in milliseconds. *)
Fixpoint total_sleep (tr : list event) : Z :=
  match tr with
  | [] => 0
  | EvSleep ms :: tr' => ms + total_sleep tr'
  | _ :: tr' => total_sleep tr'
  end.

(** The sends of the iterations [l] that go through. *)
Definition delivered (e : env) (l : list nat) : list nat :=
  filter (fun i => match env_send e i with None => true | Some _ => false end)
    l.

(** [logging.basicConfig(level=logging.INFO, ...)] (lines 16-18): the
    numeric levels of the [logging] module, and the records that pass the
    level of the root logger. *)
Definition level_no (lvl : level) : Z :=
  match lvl with
  | DEBUG => 10
  | INFO => 20
  | ERROR => 40
  end.

Definition isEnabledFor (lvl : level) : bool := (level_no INFO <=? level_no lvl)%Z.

Definition is_output (ev : event) : bool :=
  match ev with
  | EvLog lvl _ _ => isEnabledFor lvl
  | _ => false
  end.

Definition console (tr : list event) : list event := filter is_output tr.

(** A data row with one cell per column of the header. *)
Definition full_row (config : Config) (l : csv_line) : Prop :=
  line_kind_of l = DataLine /\
  List.length (cells l) = List.length (fieldnames config).

(** A log file as this program leaves it: empty, or the header followed by
    full data rows. *)
Definition log_shape (config : Config) (file : list csv_line) : Prop :=
  file = [] \/
  exists rows, file = header_line config :: rows /\ Forall (full_row config) rows.

(** The configuration file is missing. *)
Definition missing_config_env : env :=
  {| env_config := Raised (Exn FileNotFoundError "config.yml");
     env_client := None; env_bind := None; env_inbound := [];
     env_random := fun i => Z.of_nat i; env_send := fun _ => None |}.

(** The client cannot be built. *)
Definition no_client_env : env :=
  {| env_config := Returned demo_config;
     env_client := Some (Exn OSError "Name or service not known");
     env_bind := None; env_inbound := [];
     env_random := fun i => Z.of_nat i; env_send := fun _ => None |}.

(** The user interrupts the process during the second send. *)
Definition interrupted_env : env :=
  env_of demo_config None
    (fun i => if Nat.eqb i 1 then Some (Exn KeyboardInterrupt "") else None).

(** A message that supplies one value only. *)
Definition short_args : list pyval := [PBool true; PInt 440].

(** A message of one value only, handled without a fault. *)
Definition short_message : inbound :=
  {| in_address := "/synth_settings"; in_args := short_args;
     in_time := noon; in_faults := []; in_pattern := false |}.

(** A message for [stamp_config], with a value for each parameter. *)
Definition stamp_args : list pyval := [PBool true; PStr "never"; PInt 440].

(** A message whose row cannot be written once the header is. *)
Definition half_written_message : inbound :=
  {| in_address := "/synth_settings"; in_args := demo_args;
     in_time := "2024-05-01 11:59:58";
     in_faults := [None; None; Some (EncodeFault "ascii codec")];
     in_pattern := false |}.

(** * Properties *)

(** ** Dictionaries *)

Section DictFacts.

Context {V : Type}.
Implicit Types (d acc : Dict.t V) (ps : list (string * V)) (k : string).

Lemma dict_get_set k k' (v : V) d :
  Dict.get k (Dict.set k' v d) =
  if String.eqb k k' then Some v else Dict.get k d.
Proof.
  induction d as [|[k0 v0] d IH]; simpl.
  - reflexivity.
  - destruct (String.eqb k' k0) eqn:E0; simpl.
    + apply String.eqb_eq in E0; subst k0.
      destruct (String.eqb k k'); reflexivity.
    + destruct (String.eqb k k0) eqn:E1.
      * apply String.eqb_eq in E1; subst k0.
        rewrite String.eqb_sym, E0. reflexivity.
      * exact IH.
Qed.

Lemma dict_set_fresh k (v : V) d :
  ~ In k (Dict.keys d) -> Dict.set k v d = d ++ [(k, v)].
Proof.
  induction d as [|[k0 v0] d IH]; simpl; intros Hk.
  - reflexivity.
  - destruct (String.eqb k k0) eqn:E.
    + apply String.eqb_eq in E. subst. tauto.
    + rewrite IH by tauto. reflexivity.
Qed.

Lemma dict_keys_set k (v : V) d :
  incl (Dict.keys (Dict.set k v d)) (k :: Dict.keys d).
Proof.
  induction d as [|[k0 v0] d IH]; simpl.
  - apply incl_refl.
  - destruct (String.eqb k k0) eqn:E; simpl.
    + apply String.eqb_eq in E; subst k0.
      apply incl_cons; [now left|]. apply incl_tl, incl_tl, incl_refl.
    + apply incl_cons; [right; now left|].
      intros x Hx. destruct (IH x Hx) as [<-|Hd]; [now left|right; now right].
Qed.

Lemma dict_update_cons k (v : V) acc ps :
  Dict.update acc ((k, v) :: ps) = Dict.update (Dict.set k v acc) ps.
Proof. reflexivity. Qed.

Lemma dict_keys_update acc ps :
  incl (Dict.keys (Dict.update acc ps)) (Dict.keys acc ++ map fst ps).
Proof.
  revert acc. induction ps as [|[k v] ps IH]; intros acc.
  - simpl. rewrite app_nil_r. apply incl_refl.
  - rewrite dict_update_cons. simpl.
    intros x Hx. apply IH in Hx. apply in_app_or in Hx as [Hx|Hx].
    + apply dict_keys_set in Hx as [<-|Hx].
      * apply in_or_app; right; now left.
      * apply in_or_app; now left.
    + apply in_or_app; right; now right.
Qed.

(** Distinct keys: inserting the pairs one by one appends them. *)
Lemma dict_update_nodup acc ps :
  NoDup (Dict.keys acc ++ map fst ps) -> Dict.update acc ps = acc ++ ps.
Proof.
  revert acc. induction ps as [|[k v] ps IH]; intros acc Hnd.
  - simpl. now rewrite app_nil_r.
  - simpl in Hnd.
    assert (Hk : ~ In k (Dict.keys acc)).
    { apply NoDup_remove_2 in Hnd. intros Hin. apply Hnd.
      apply in_or_app; now left. }
    rewrite dict_update_cons, IH.
    + rewrite dict_set_fresh by exact Hk. now rewrite <- app_assoc.
    + rewrite dict_set_fresh by exact Hk.
      unfold Dict.keys. rewrite map_app. simpl. rewrite <- app_assoc.
      exact Hnd.
Qed.

Lemma dict_of_pairs_nodup ps :
  NoDup (map fst ps) -> Dict.of_pairs ps = ps.
Proof.
  intros Hnd. unfold Dict.of_pairs. now rewrite dict_update_nodup.
Qed.

Lemma dict_values_set k (v : V) d :
  incl (Dict.values (Dict.set k v d)) (v :: Dict.values d).
Proof.
  induction d as [|[k0 v0] d IH]; simpl.
  - apply incl_refl.
  - destruct (String.eqb k k0); simpl.
    + apply incl_cons; [now left|]. apply incl_tl, incl_tl, incl_refl.
    + apply incl_cons; [right; now left|].
      intros x Hx. destruct (IH x Hx) as [<-|Hd]; [now left|right; now right].
Qed.

Lemma dict_values_update acc ps :
  incl (Dict.values (Dict.update acc ps)) (Dict.values acc ++ map snd ps).
Proof.
  revert acc. induction ps as [|[k v] ps IH]; intros acc.
  - simpl. rewrite app_nil_r. apply incl_refl.
  - rewrite dict_update_cons. simpl.
    intros x Hx. apply IH in Hx. apply in_app_or in Hx as [Hx|Hx].
    + apply dict_values_set in Hx as [<-|Hx].
      * apply in_or_app; right; now left.
      * apply in_or_app; now left.
    + apply in_or_app; right; now right.
Qed.

(** A key the pairs do not mention keeps what it had. *)
Lemma dict_get_update_other k acc ps :
  ~ In k (map fst ps) -> Dict.get k (Dict.update acc ps) = Dict.get k acc.
Proof.
  revert acc. induction ps as [|[k0 v0] ps IH]; intros acc Hk.
  - reflexivity.
  - simpl in Hk. rewrite dict_update_cons, IH by tauto.
    rewrite dict_get_set.
    destruct (String.eqb k k0) eqn:E; [|reflexivity].
    apply String.eqb_eq in E. subst. tauto.
Qed.

(** When all the pairs of key [k] carry [v], so does the result. *)
Lemma dict_get_update_same k (v : V) acc ps :
  (forall v', In (k, v') ps -> v' = v) ->
  Dict.get k acc = Some v \/ In k (map fst ps) ->
  Dict.get k (Dict.update acc ps) = Some v.
Proof.
  revert acc. induction ps as [|[k0 v0] ps IH]; intros acc Hall Hk.
  - destruct Hk as [Hk|[]]. exact Hk.
  - rewrite dict_update_cons. apply IH.
    + intros v' Hin. apply Hall. now right.
    + rewrite dict_get_set. simpl in Hk.
      destruct (String.eqb k k0) eqn:E.
      * apply String.eqb_eq in E; subst k0. left.
        f_equal. apply Hall. now left.
      * destruct Hk as [Hk|[Hk|Hk]]; [now left| |now right].
        subst k0. now rewrite String.eqb_refl in E.
Qed.

End DictFacts.

(** ** Lists: zipping stops at the shorter side *)

Lemma combine_shorter {A B : Type} (xs : list A) (ys : list B) :
  combine xs ys =
  combine (firstn (Nat.min (List.length xs) (List.length ys)) xs)
          (firstn (Nat.min (List.length xs) (List.length ys)) ys).
Proof.
  revert ys. induction xs as [|x xs IH]; intros [|y ys]; simpl; try reflexivity.
  now rewrite <- IH.
Qed.

Lemma combine_keys {A B : Type} (xs : list A) (ys : list B) :
  List.length xs = List.length ys -> map fst (combine xs ys) = xs.
Proof.
  revert ys. induction xs as [|x xs IH]; intros [|y ys]; simpl; intros H;
    try discriminate; [reflexivity|].
  f_equal. apply IH. now injection H.
Qed.

Lemma combine_values {A B : Type} (xs : list A) (ys : list B) :
  List.length xs = List.length ys -> map snd (combine xs ys) = ys.
Proof.
  revert ys. induction xs as [|x xs IH]; intros [|y ys]; simpl; intros H;
    try discriminate; [reflexivity|].
  f_equal. apply IH. now injection H.
Qed.

Lemma combine_keys_incl {A B : Type} (xs : list A) (ys : list B) :
  incl (map fst (combine xs ys)) xs.
Proof.
  revert ys. induction xs as [|x xs IH]; intros [|y ys]; simpl.
  - intros ? [].
  - intros ? [].
  - intros ? [].
  - apply incl_cons; [now left|]. apply incl_tl, IH.
Qed.

(** ** The CSV writer never refuses the rows of this program *)

Lemma no_wrong_fields (fn ks : list string) :
  incl ks fn -> filter (fun k => negb (DictWriter.mem k fn)) ks = [].
Proof.
  induction ks as [|k ks IH]; intros Hincl; simpl.
  - reflexivity.
  - assert (Hk : DictWriter.mem k fn = true).
    { unfold DictWriter.mem. apply existsb_exists. exists k. split.
      - apply Hincl. now left.
      - apply String.eqb_refl. }
    rewrite Hk. simpl. apply IH. intros x Hx. apply Hincl. now right.
Qed.

Lemma writerow_run (fn : list string) (rd : Dict.t pyval) :
  incl (Dict.keys rd) fn ->
  DictWriter.writerow fn rd =
  write_line
    (Line DataLine (map (fun k => Dict.get_default k DictWriter.restval rd) fn)).
Proof.
  intros Hincl. unfold DictWriter.writerow, DictWriter._dict_to_list.
  rewrite (no_wrong_fields Hincl). reflexivity.
Qed.

Lemma header_cells (fn : list string) :
  map (fun k => Dict.get_default k DictWriter.restval
                  (Dict.of_pairs (combine fn (map PStr fn)))) fn =
  map PStr fn.
Proof.
  apply map_ext_in. intros k Hk. unfold Dict.get_default, Dict.of_pairs.
  rewrite (@dict_get_update_same _ k (PStr k)); [reflexivity| |].
  - intros v' Hin. clear Hk. induction fn as [|k0 fn IH]; simpl in Hin.
    + destruct Hin.
    + destruct Hin as [Heq|Hin]; [now inversion Heq|now apply IH].
  - right. rewrite combine_keys; [exact Hk|now rewrite length_map].
Qed.

Lemma writeheader_run (fn : list string) :
  DictWriter.writeheader fn = write_line (Line HeaderLine (map PStr fn)).
Proof.
  unfold DictWriter.writeheader, DictWriter._dict_to_list.
  rewrite no_wrong_fields.
  - rewrite header_cells. reflexivity.
  - unfold Dict.of_pairs. intros x Hx. apply dict_keys_update in Hx.
    simpl in Hx. now apply combine_keys_incl in Hx.
Qed.

Lemma rowdict_keys (config : Config) (ts : string) (args : list pyval) :
  incl (Dict.keys (rowdict ts (settings_dict config args))) (fieldnames config).
Proof.
  unfold rowdict, settings_dict, Dict.of_pairs, fieldnames.
  intros x Hx. apply dict_keys_update in Hx. simpl in Hx.
  destruct Hx as [Hx|Hx]; [now left|right].
  apply dict_keys_update in Hx. simpl in Hx.
  now apply combine_keys_incl in Hx.
Qed.

(** ** One call of the handler *)

Ltac run_handler c w args :=
  cbv [log_synth_settings try_except bind strftime];
  rewrite writeheader_run;
  rewrite (writerow_run _ (rowdict_keys c (w_now w) args)).

(** No fault met: the lines are appended and the record is logged at
    debug level. *)
Lemma handler_clean (a : string) (args : list pyval) (c : Config) (w : world) :
  faulted (w_file w) (w_io_faults w) = None ->
  log_synth_settings a args c w =
  (Returned tt,
   {| w_trace := w_trace w ++ [debug_record c args];
      w_file := w_file w ++ new_lines c (w_file w) (w_now w) args;
      w_now := w_now w;
      w_io_faults :=
        skipn (if is_empty (w_file w) then 3 else 2) (w_io_faults w);
      w_thread := w_thread w |}).
Proof.
  intros Hq. run_handler c w args.
  destruct w as [tr file now fs th]. simpl in *.
  destruct fs as [|[f1|] [|[f2|] [|[f3|] r]]]; destruct file as [|l file];
    simpl in Hq; try discriminate; reflexivity.
Qed.

(** A fault met: it is logged as an error, no whole data line is written,
    and what reached the file is the header or a cut line at most. *)
Lemma handler_faulted (a : string) (args : list pyval) (c : Config) (w : world)
    (f : io_fault) :
  faulted (w_file w) (w_io_faults w) = Some f ->
  exists w',
    log_synth_settings a args c w = (Returned tt, w') /\
    w_trace w' = w_trace w ++ [fault_record c f] /\
    (exists left,
        w_file w' = w_file w ++ left /\
        left_by_fault c (w_file w) (w_now w) args left) /\
    w_thread w' = w_thread w.
Proof.
  intros Hq. run_handler c w args.
  destruct w as [tr file now fs th]. simpl in *.
  destruct fs as [|[f1|] [|[f2|] [|[f3|] r]]]; destruct file as [|l file];
    simpl in Hq; try discriminate; injection Hq as <-;
    match goal with |- context [fault_record _ ?g] => destruct g end;
    eexists; (split; [reflexivity|]); simpl;
    (split; [reflexivity|]); (split; [|reflexivity]);
    unfold left_by_fault;
    first
      [ exists []; split; [now rewrite ?app_nil_r|now left]
      | eexists; split; [reflexivity|];
        first [ right; left; split; [reflexivity|]; now left
              | right; left; split; [reflexivity|]; right; now left
              | right; left; split; [reflexivity|]; right; now right
              | right; right; split; [discriminate|reflexivity] ] ].
Qed.

Lemma handler_returns (a : string) (args : list pyval) (c : Config) (w : world) :
  fst (log_synth_settings a args c w) = Returned tt.
Proof.
  destruct (faulted (w_file w) (w_io_faults w)) as [f|] eqn:Hq.
  - destruct (handler_faulted a args c w Hq) as (w' & -> & _). reflexivity.
  - now rewrite handler_clean.
Qed.

Lemma dispatch_synth_settings (c : Config) (args : list pyval) :
  dispatch c synth_settings_route args =
  log_synth_settings synth_settings_route args c.
Proof. reflexivity. Qed.

(** With pairwise distinct column names, a full message fills the row
    with the timestamp and then the values as they came. *)
Lemma data_line_cells (c : Config) (ts : string) (args : list pyval) :
  NoDup (fieldnames c) ->
  List.length (settings_of args) = List.length (synth_params c) ->
  data_line c ts args = Line DataLine (PStr ts :: settings_of args).
Proof.
  intros Hnd Hlen. unfold data_line. f_equal.
  assert (Hrd : rowdict ts (settings_dict c args) =
                combine (fieldnames c) (PStr ts :: settings_of args)).
  { unfold rowdict, settings_dict. inversion Hnd as [|x l Hx Hnd']; subst.
    rewrite dict_of_pairs_nodup by (rewrite combine_keys; auto).
    rewrite dict_update_nodup; [reflexivity|].
    simpl. rewrite combine_keys by auto. exact Hnd. }
  rewrite Hrd.
  assert (Hlen' : List.length (fieldnames c) =
                  List.length (PStr ts :: settings_of args))
    by (simpl; now rewrite Hlen).
  revert Hnd Hlen'. generalize (PStr ts :: settings_of args) as vs.
  generalize (fieldnames c) as ks. clear.
  induction ks as [|k ks IH]; intros [|v vs] Hnd Hlen; simpl in *;
    try discriminate; [reflexivity|].
  inversion Hnd as [|x l Hx Hnd']; subst.
  unfold Dict.get_default at 1. simpl. rewrite String.eqb_refl. f_equal.
  etransitivity; [|apply (IH vs Hnd'); now injection Hlen].
  apply map_ext_in. intros k' Hk'. unfold Dict.get_default. simpl.
  destruct (String.eqb k' k) eqn:E; [|reflexivity].
  apply String.eqb_eq in E. subst. contradiction.
Qed.

Lemma settings_dict_shorter (c : Config) (args : list pyval) :
  settings_dict c args =
  Dict.of_pairs
    (combine
       (firstn (Nat.min (List.length (synth_params c))
                        (List.length (settings_of args))) (synth_params c))
       (firstn (Nat.min (List.length (synth_params c))
                        (List.length (settings_of args))) (settings_of args))).
Proof.
  unfold settings_dict. now rewrite <- combine_shorter.
Qed.

(** ** The message codec *)

(** C1, as the code has it: for a message on /synth_settings whose
    arguments after the framing flag are as many as the configured
    parameter names, and when those names are pairwise distinct, the
    record has the configured names as its keys, in order, and the
    arguments from index 1 onward as its values, position by position;
    when no file operation fails this is the record whose row is appended
    to the log file and which is logged at debug level. *)
Theorem synth_settings_record_distinct_names
    (config : Config) (args : list pyval) (w : world) :
  NoDup (synth_params config) ->
  List.length (settings_of args) = List.length (synth_params config) ->
  faulted (w_file w) (w_io_faults w) = None ->
  Dict.keys (settings_dict config args) = synth_params config /\
  Dict.values (settings_dict config args) = settings_of args /\
  settings_dict config args = combine (synth_params config) (settings_of args) /\
  fst (dispatch config synth_settings_route args w) = Returned tt /\
  w_file (snd (dispatch config synth_settings_route args w)) =
    w_file w ++ new_lines config (w_file w) (w_now w) args /\
  w_trace (snd (dispatch config synth_settings_route args w)) =
    w_trace w ++
    [EvLog DEBUG "Logged synth settings: %s"
       [LDict (combine (synth_params config) (settings_of args))]].
Proof.
  intros Hnd Hlen Hq.
  assert (Hd : settings_dict config args =
               combine (synth_params config) (settings_of args)).
  { unfold settings_dict. apply dict_of_pairs_nodup.
    now rewrite combine_keys by auto. }
  rewrite dispatch_synth_settings, handler_clean by exact Hq.
  unfold debug_record. rewrite Hd. unfold Dict.keys, Dict.values.
  rewrite combine_keys, combine_values by auto.
  repeat split; reflexivity.
Qed.

Lemma synth_settings_record_distinct_names_witness :
  Dict.keys (settings_dict demo_config demo_args) = ["freq"; "amp"] /\
  Dict.values (settings_dict demo_config demo_args) =
    [PInt 440; PFloat 1061997773] /\
  w_file (snd (dispatch demo_config synth_settings_route demo_args
                 (world_at noon [] []))) =
    [Line HeaderLine [PStr "Timestamp"; PStr "freq"; PStr "amp"];
     Line DataLine [PStr noon; PInt 440; PFloat 1061997773]].
Proof.
  assert (Hnd : NoDup (synth_params demo_config)).
  { apply NoDup_cons; [simpl; intros [H|[]]; discriminate|].
    apply NoDup_cons; [simpl; tauto|apply NoDup_nil]. }
  destruct (@synth_settings_record_distinct_names demo_config demo_args
              (world_at noon [] []) Hnd eq_refl eq_refl)
    as (Hk & Hv & _ & _ & Hf & _).
  split; [exact Hk|]. split; [exact Hv|exact Hf].
Defined.

(** C1 fails as stated: with a parameter name configured twice a
    dictionary keeps the name once, with the value that came last. *)
Lemma synth_settings_record_duplicate_names :
  List.length (settings_of twice_args) =
    List.length (synth_params twice_config) /\
  settings_dict twice_config twice_args = [("a", PInt 2)] /\
  Dict.keys (settings_dict twice_config twice_args) <>
    synth_params twice_config /\
  Dict.values (settings_dict twice_config twice_args) <>
    settings_of twice_args /\
  w_file (snd (dispatch twice_config synth_settings_route twice_args
                 (world_at noon [] []))) =
    [Line HeaderLine [PStr "Timestamp"; PStr "a"; PStr "a"];
     Line DataLine [PStr noon; PInt 2; PInt 2]].
Proof.
  repeat split; try reflexivity; vm_compute; discriminate.
Qed.

(** C4: when the number of arguments after the framing flag differs from
    the number of configured names, the record is built from the pairs up
    to the shorter of the two lengths: a name that occurs only past that
    length is absent, every value of the record is among the first values,
    and the handler returns without an exception. *)
Theorem mismatched_counts_use_shorter_length
    (address : string) (config : Config) (args : list pyval) (w : world) :
  List.length (settings_of args) <> List.length (synth_params config) ->
  let m := Nat.min (List.length (synth_params config))
                   (List.length (settings_of args)) in
  settings_dict config args =
    Dict.of_pairs (combine (firstn m (synth_params config))
                           (firstn m (settings_of args))) /\
  List.length (combine (synth_params config) (settings_of args)) = m /\
  (forall k, ~ In k (firstn m (synth_params config)) ->
             Dict.get k (settings_dict config args) = None) /\
  incl (Dict.values (settings_dict config args)) (firstn m (settings_of args)) /\
  fst (log_synth_settings address args config w) = Returned tt.
Proof.
  intros _ m. split; [apply settings_dict_shorter|].
  split; [apply length_combine|].
  split; [|split; [|apply handler_returns]].
  - intros k Hk. rewrite settings_dict_shorter. fold m.
    unfold Dict.of_pairs. rewrite dict_get_update_other; [reflexivity|].
    intros Hin. apply combine_keys_incl in Hin. contradiction.
  - rewrite settings_dict_shorter. fold m. unfold Dict.of_pairs.
    intros v Hv. apply dict_values_update in Hv. simpl in Hv.
    revert Hv. generalize (firstn m (synth_params config)) as ks.
    generalize (firstn m (settings_of args)) as vs.
    induction vs as [|v0 vs IH]; intros [|k ks]; simpl; try tauto.
    intros [<-|Hv]; [now left|right; now apply (IH ks)].
Qed.

Lemma mismatched_counts_use_shorter_length_witness :
  settings_dict demo_config [PBool true; PInt 440] = [("freq", PInt 440)] /\
  Dict.get "amp" (settings_dict demo_config [PBool true; PInt 440]) = None /\
  settings_dict demo_config (demo_args ++ [PInt 7]) =
    settings_dict demo_config demo_args /\
  fst (log_synth_settings "/synth_settings" [PBool true; PInt 440] demo_config
         (world_at noon [] [])) = Returned tt.
Proof.
  assert (H1 : List.length (settings_of [PBool true; PInt 440]) <>
               List.length (synth_params demo_config)) by (simpl; lia).
  assert (H2 : List.length (settings_of (demo_args ++ [PInt 7])) <>
               List.length (synth_params demo_config)) by (simpl; lia).
  destruct (@mismatched_counts_use_shorter_length "/synth_settings" demo_config
              [PBool true; PInt 440] (world_at noon [] []) H1)
    as (Heq & _ & Hnone & _ & Hret).
  destruct (@mismatched_counts_use_shorter_length "/synth_settings" demo_config
              (demo_args ++ [PInt 7]) (world_at noon [] []) H2)
    as (Heq' & _).
  split; [rewrite Heq; reflexivity|].
  split; [apply Hnone; simpl; intros [H|[]]; discriminate|].
  split; [rewrite Heq'; reflexivity|exact Hret].
Defined.

(** ** The settings logger *)

Lemma zero_arguments_line (c : Config) (ts : string) :
  data_line c ts [] =
  Line DataLine
    (PStr ts ::
     map (fun k => if String.eqb k "Timestamp" then PStr ts else PStr "")
         (synth_params c)).
Proof.
  unfold data_line, settings_dict, settings_of. simpl skipn.
  rewrite combine_nil. unfold fieldnames. f_equal. simpl. f_equal.
  apply map_ext. intros k. unfold Dict.get_default. simpl.
  now destruct (String.eqb k "Timestamp").
Qed.

(** C9, as the code has it: for every address, argument sequence,
    configuration and state of the file system, log_synth_settings returns
    normally; with zero arguments and no failing file operation it appends
    (after the header, when the file was empty) one row that holds the
    timestamp and an empty cell for every parameter column, except that a
    parameter column itself named Timestamp repeats the timestamp. *)
Theorem log_synth_settings_never_raises
    (address : string) (args : list pyval) (config : Config) (w : world) :
  fst (log_synth_settings address args config w) = Returned tt /\
  (faulted (w_file w) (w_io_faults w) = None ->
   w_file (snd (log_synth_settings address [] config w)) =
   w_file w ++
   (if is_empty (w_file w) then [header_line config] else []) ++
   [Line DataLine
      (PStr (w_now w) ::
       map (fun k => if String.eqb k "Timestamp"
                     then PStr (w_now w) else PStr "")
           (synth_params config))]).
Proof.
  split; [apply handler_returns|].
  intros Hq. rewrite handler_clean by exact Hq. simpl.
  unfold new_lines. now rewrite zero_arguments_line.
Qed.

Lemma log_synth_settings_never_raises_witness :
  fst (log_synth_settings "/synth_settings" [] demo_config
         (world_at noon [] [None; Some (DiskFault "No space left on device")]))
    = Returned tt /\
  w_file (snd (log_synth_settings "/synth_settings" [] demo_config
                 (world_at noon [] []))) =
    [Line HeaderLine [PStr "Timestamp"; PStr "freq"; PStr "amp"];
     Line DataLine [PStr noon; PStr ""; PStr ""]].
Proof.
  split.
  - exact (proj1 (@log_synth_settings_never_raises "/synth_settings" []
                    demo_config
                    (world_at noon []
                       [None; Some (DiskFault "No space left on device")]))).
  - exact (proj2 (@log_synth_settings_never_raises "/synth_settings" []
                    demo_config (world_at noon [] [])) eq_refl).
Defined.

(** C9 fails as stated: with a parameter named Timestamp the row of a
    message without arguments has the timestamp in that parameter's cell,
    not an empty cell. *)
Lemma zero_arguments_timestamp_column :
  w_file (snd (log_synth_settings "/synth_settings" [] stamp_config
                 (world_at noon [] []))) =
    [Line HeaderLine [PStr "Timestamp"; PStr "Timestamp"; PStr "freq"];
     Line DataLine [PStr noon; PStr noon; PStr ""]] /\
  w_file (snd (log_synth_settings "/synth_settings" [] stamp_config
                 (world_at noon [] []))) <>
    [header_line stamp_config;
     Line DataLine
       (PStr noon :: map (fun _ => PStr "") (synth_params stamp_config))].
Proof.
  split; [reflexivity|]. vm_compute. discriminate.
Qed.

(** ** The listener's loop *)

Lemma quiet_not_faulted (file : list csv_line) (fs : list (option io_fault)) :
  quiet fs -> faulted file fs = None.
Proof.
  intros Hq. unfold faulted.
  destruct fs as [|[f1|] fs]; [reflexivity|inversion Hq; discriminate|].
  inversion Hq as [|x l _ Hq1]; subst.
  destruct fs as [|[f2|] fs]; [reflexivity|inversion Hq1; discriminate|].
  inversion Hq1 as [|x l _ Hq2]; subst.
  destruct fs as [|[f3|] fs]; [reflexivity|inversion Hq2; discriminate|].
  reflexivity.
Qed.

Lemma dispatch_returns (c : Config) (a : string) (args : list pyval) (w : world) :
  fst (dispatch c a args w) = Returned tt.
Proof.
  unfold dispatch. destruct (String.eqb a synth_settings_route).
  - apply handler_returns.
  - reflexivity.
Qed.

Lemma deliver_selected (c : Config) (m : inbound) :
  selected m = true ->
  deliver c m = log_synth_settings (in_address m) (in_args m) c.
Proof.
  unfold selected, deliver, dispatch. destruct (in_pattern m); simpl.
  - reflexivity.
  - intros ->. reflexivity.
Qed.

Lemma deliver_ignored (c : Config) (m : inbound) :
  selected m = false -> deliver c m = ret tt.
Proof.
  unfold selected, deliver, dispatch. destruct (in_pattern m); simpl.
  - discriminate.
  - intros ->. reflexivity.
Qed.

Lemma on_route_selected (m : inbound) :
  in_address m = synth_settings_route -> selected m = true.
Proof.
  intros Hr. unfold selected. rewrite Hr, String.eqb_refl.
  apply orb_true_r.
Qed.

Lemma deliver_returns (c : Config) (m : inbound) (w : world) :
  fst (deliver c m w) = Returned tt.
Proof.
  destruct (selected m) eqn:Hs.
  - rewrite (deliver_selected c m Hs). apply handler_returns.
  - rewrite (deliver_ignored c m Hs). reflexivity.
Qed.

Lemma serve_cons (c : Config) (m : inbound) (ms : list inbound) (w : world) :
  serve_forever c (m :: ms) w = serve_forever c ms (handled c m w).
Proof.
  unfold serve_forever, handled.
  set (body := fun m0 : inbound => arrive m0 ;; deliver c m0).
  change (for_each (m :: ms) body w)
    with (bind (body m) (fun _ => for_each ms body) w).
  change ((arrive m ;; deliver c m) w) with (body m w).
  assert (Hret : fst (body m w) = Returned tt).
  { unfold body, bind, arrive. apply deliver_returns. }
  unfold bind at 1.
  destruct (body m w) as [[[]|e] w2]; simpl in *; [reflexivity|discriminate].
Qed.

Lemma serve_returns (c : Config) (ms : list inbound) (w : world) :
  fst (serve_forever c ms w) = Returned tt.
Proof.
  revert w. induction ms as [|m ms IH]; intros w.
  - reflexivity.
  - rewrite serve_cons. apply IH.
Qed.

(** A message that the library hands to the handler, whatever its
    address. *)
Lemma handled_clean_selected (c : Config) (m : inbound) (w : world) :
  selected m = true ->
  faulted (w_file w) (in_faults m) = None ->
  w_file (handled c m w) =
    w_file w ++ new_lines c (w_file w) (in_time m) (in_args m) /\
  w_trace (handled c m w) = w_trace w ++ [debug_record c (in_args m)].
Proof.
  intros Hs Hq. unfold handled, bind, arrive.
  rewrite (deliver_selected c m Hs), handler_clean by exact Hq.
  split; reflexivity.
Qed.

Lemma handled_faulted_selected (c : Config) (m : inbound) (w : world)
    (f : io_fault) :
  selected m = true ->
  faulted (w_file w) (in_faults m) = Some f ->
  w_trace (handled c m w) = w_trace w ++ [fault_record c f] /\
  exists left,
    w_file (handled c m w) = w_file w ++ left /\
    left_by_fault c (w_file w) (in_time m) (in_args m) left.
Proof.
  intros Hs Hq. unfold handled, bind, arrive.
  rewrite (deliver_selected c m Hs).
  match goal with |- context [log_synth_settings ?a ?args c ?w0] =>
    destruct (@handler_faulted a args c w0 f Hq) as (w' & -> & Ht & Hf & _)
  end.
  split; assumption.
Qed.

Lemma handled_clean (c : Config) (m : inbound) (w : world) :
  in_address m = synth_settings_route ->
  faulted (w_file w) (in_faults m) = None ->
  w_file (handled c m w) =
    w_file w ++ new_lines c (w_file w) (in_time m) (in_args m) /\
  w_trace (handled c m w) = w_trace w ++ [debug_record c (in_args m)].
Proof.
  intros Hr. apply handled_clean_selected. now apply on_route_selected.
Qed.

Lemma handled_faulted (c : Config) (m : inbound) (w : world) (f : io_fault) :
  in_address m = synth_settings_route ->
  faulted (w_file w) (in_faults m) = Some f ->
  w_trace (handled c m w) = w_trace w ++ [fault_record c f] /\
  exists left,
    w_file (handled c m w) = w_file w ++ left /\
    left_by_fault c (w_file w) (in_time m) (in_args m) left.
Proof.
  intros Hr. apply handled_faulted_selected. now apply on_route_selected.
Qed.

(** A message whose address does not select the route. *)
Lemma handled_ignored (c : Config) (m : inbound) (w : world) :
  selected m = false ->
  w_file (handled c m w) = w_file w /\ w_trace (handled c m w) = w_trace w.
Proof.
  intros Hs. unfold handled, bind, arrive.
  rewrite (deliver_ignored c m Hs). split; reflexivity.
Qed.

Lemma header_count_app (f g : list csv_line) :
  header_count (f ++ g) = header_count f + header_count g.
Proof.
  unfold header_count. now rewrite filter_app, length_app.
Qed.

Lemma left_by_fault_nonempty (c : Config) (file : list csv_line) (ts : string)
    (args : list pyval) (left : list csv_line) :
  file <> [] -> left_by_fault c file ts args left -> header_count left = 0.
Proof.
  intros Hne [->|[[He _]|[_ ->]]]; [reflexivity|contradiction|reflexivity].
Qed.

(** Whatever the message and the faults, a file that has a line keeps its
    lines and gains no header. *)
Lemma handled_nonempty (c : Config) (m : inbound) (w : world) :
  w_file w <> [] ->
  w_file (handled c m w) <> [] /\
  header_count (w_file (handled c m w)) = header_count (w_file w).
Proof.
  intros Hne.
  destruct (selected m) eqn:Hs.
  - destruct (faulted (w_file w) (in_faults m)) as [f|] eqn:Hq.
    + destruct (handled_faulted_selected c m w Hs Hq)
        as (_ & left & -> & Hleft).
      split.
      * intros Happ. apply app_eq_nil in Happ as [Hf _]. contradiction.
      * rewrite header_count_app, (left_by_fault_nonempty Hne Hleft). lia.
    + destruct (handled_clean_selected c m w Hs Hq) as (-> & _).
      unfold new_lines. destruct (w_file w) as [|l file]; [contradiction|].
      simpl is_empty. cbv iota. split; [discriminate|].
      rewrite header_count_app. cbn. lia.
  - destruct (handled_ignored c m w Hs) as (-> & _). now split.
Qed.

Lemma serve_nonempty (c : Config) (ms : list inbound) (w : world) :
  w_file w <> [] ->
  header_count (w_file (snd (serve_forever c ms w))) = header_count (w_file w).
Proof.
  revert w. induction ms as [|m ms IH]; intros w Hne.
  - reflexivity.
  - rewrite serve_cons. destruct (handled_nonempty c m w Hne) as (Hne' & Hc).
    rewrite IH by exact Hne'. exact Hc.
Qed.

(** Successful appends to a file that has lines add their rows. *)
Lemma serve_appends (c : Config) (ms : list inbound) (w : world) :
  w_file w <> [] -> Forall appended_ok ms ->
  w_file (snd (serve_forever c ms w)) = w_file w ++ map (line_of c) ms.
Proof.
  revert w. induction ms as [|m ms IH]; intros w Hne Hok.
  - simpl. now rewrite app_nil_r.
  - inversion Hok as [|x l [Hr Hq] Hok']; subst.
    rewrite serve_cons.
    destruct (handled_clean c m w Hr (quiet_not_faulted (w_file w) Hq))
      as (Hf & _).
    rewrite IH; [|rewrite Hf; now destruct (w_file w)|exact Hok'].
    rewrite Hf. unfold new_lines.
    destruct (w_file w) as [|l0 file]; [contradiction|].
    simpl is_empty. cbv iota. rewrite <- app_assoc. reflexivity.
Qed.

Lemma header_count_rows (c : Config) (ms : list inbound) :
  header_count (map (line_of c) ms) = 0.
Proof.
  unfold header_count. induction ms as [|m ms IH]; simpl; auto.
Qed.

Lemma serve_from_empty (c : Config) (ms : list inbound) (w : world) :
  w_file w = [] -> ms <> [] -> Forall appended_ok ms ->
  w_file (snd (serve_forever c ms w)) = header_line c :: map (line_of c) ms.
Proof.
  intros He Hne Hok. destruct ms as [|m ms]; [contradiction|].
  inversion Hok as [|x l [Hr Hq] Hok']; subst.
  rewrite serve_cons.
  destruct (handled_clean c m w Hr (quiet_not_faulted (w_file w) Hq))
    as (Hf & _).
  rewrite He in Hf. simpl in Hf.
  rewrite serve_appends; [|rewrite Hf; discriminate|exact Hok'].
  rewrite Hf. reflexivity.
Qed.

(** C3: for every non-empty sequence of successful appends that starts
    from an empty log file, the file is the header row (Timestamp, then the
    configured names in order) followed by one data row per append, so the
    header is written exactly once; each cell of a data row holds the
    record's value for the name in the same position of the header, or the
    empty string; one append writes the header if and only if the file is
    empty when it is opened; and appends to a non-empty file, whatever
    they meet, never add a header. *)
Theorem header_written_once (config : Config) (ms : list inbound) (w : world) :
  w_file w = [] -> ms <> [] -> Forall appended_ok ms ->
  w_file (snd (serve_forever config ms w)) =
    Line HeaderLine (PStr "Timestamp" :: map PStr (synth_params config)) ::
    map (line_of config) ms /\
  header_count (w_file (snd (serve_forever config ms w))) = 1 /\
  (forall m i k,
      In m ms -> nth_error (fieldnames config) i = Some k ->
      nth_error (cells (header_line config)) i = Some (PStr k) /\
      nth_error (cells (line_of config m)) i =
        Some (Dict.get_default k (PStr "")
                (rowdict (in_time m) (settings_dict config (in_args m))))) /\
  (forall m w1,
      appended_ok m ->
      header_count (w_file (handled config m w1)) =
        S (header_count (w_file w1)) <-> w_file w1 = []) /\
  (forall ms1 w1,
      w_file w1 <> [] ->
      header_count (w_file (snd (serve_forever config ms1 w1))) =
        header_count (w_file w1)).
Proof.
  intros He Hne Hok.
  pose proof (serve_from_empty config w He Hne Hok) as Hfile.
  split; [exact Hfile|]. split.
  { rewrite Hfile.
    change (header_line config :: map (line_of config) ms)
      with ([header_line config] ++ map (line_of config) ms).
    rewrite header_count_app, header_count_rows. reflexivity. }
  split.
  { intros m i k _ Hk. unfold header_line, line_of, data_line. cbn [cells].
    rewrite !nth_error_map, Hk. split; reflexivity. }
  split.
  { intros m w1 [Hr Hq].
    destruct (handled_clean config m w1 Hr
                (quiet_not_faulted (w_file w1) Hq)) as (Hf & _).
    rewrite Hf, header_count_app. unfold new_lines.
    destruct (w_file w1) as [|l file]; simpl is_empty; cbv iota.
    - split; [reflexivity|]. intros _. cbn. reflexivity.
    - cbn [app]. split; [|discriminate].
      unfold header_count at 2. simpl. lia. }
  intros ms1 w1 Hne1. now apply serve_nonempty.
Qed.

Lemma header_written_once_witness :
  w_file (snd (serve_forever demo_config [first_message; second_message]
                 fresh)) =
    [Line HeaderLine [PStr "Timestamp"; PStr "freq"; PStr "amp"];
     Line DataLine [PStr noon; PInt 440; PFloat 1061997773];
     Line DataLine [PStr "2024-05-01 12:00:01"; PInt 220; PFloat 1056964608]] /\
  header_count
    (w_file (snd (serve_forever demo_config [first_message; second_message]
                    fresh))) = 1.
Proof.
  assert (Hne : [first_message; second_message] <> []) by discriminate.
  assert (Hok : Forall appended_ok [first_message; second_message]).
  { repeat constructor. }
  destruct (@header_written_once demo_config [first_message; second_message]
              fresh eq_refl Hne Hok)
    as (Hf & Hc & _).
  split; [exact Hf|exact Hc].
Defined.

Lemma left_by_fault_no_row (c : Config) (file : list csv_line) (ts : string)
    (args : list pyval) (left : list csv_line) :
  left_by_fault c file ts args left -> data_lines left = [].
Proof.
  intros [->|[[_ [->|[->| ->]]]|[_ ->]]]; reflexivity.
Qed.

(** C5, as the code has it: when opening or writing the log file fails
    while a message is handled, the fault is logged as an error and no
    exception leaves the handler; no whole row is written for that
    message, but a write cut short can leave a part of the header or of
    the row at the end of the file; the listener goes on, and a following
    message that meets no fault is served: its row is appended in full
    right after what the file holds, with the header before it only when
    the file is still empty. *)
Theorem write_fault_is_contained
    (config : Config) (m1 m2 : inbound) (w : world) (f : io_fault) :
  in_address m1 = synth_settings_route ->
  faulted (w_file w) (in_faults m1) = Some f ->
  appended_ok m2 ->
  fst (log_synth_settings (in_address m1) (in_args m1) config
         (snd (arrive m1 w))) = Returned tt /\
  w_trace (handled config m1 w) = w_trace w ++ [fault_record config f] /\
  (exists left,
      w_file (handled config m1 w) = w_file w ++ left /\
      left_by_fault config (w_file w) (in_time m1) (in_args m1) left) /\
  data_lines (w_file (handled config m1 w)) = data_lines (w_file w) /\
  fst (serve_forever config [m1; m2] w) = Returned tt /\
  w_file (snd (serve_forever config [m1; m2] w)) =
    w_file (handled config m1 w) ++
    (if is_empty (w_file (handled config m1 w))
     then [header_line config] else []) ++
    [line_of config m2].
Proof.
  intros Hr Hq [Hr2 Hq2].
  destruct (handled_faulted config m1 w Hr Hq) as (Ht & left & Hf & Hleft).
  split; [apply handler_returns|]. split; [exact Ht|].
  split; [exists left; now split|]. split.
  { rewrite Hf. unfold data_lines. rewrite filter_app.
    fold (data_lines left). rewrite (left_by_fault_no_row Hleft).
    now rewrite app_nil_r. }
  split; [apply serve_returns|].
  rewrite !serve_cons. simpl serve_forever. simpl snd.
  destruct (handled_clean config m2 (handled config m1 w) Hr2
              (quiet_not_faulted _ Hq2)) as (-> & _).
  reflexivity.
Qed.

Lemma write_fault_is_contained_witness :
  w_trace (handled demo_config refused_message fresh) =
    [EvLog ERROR "Failed to write to %s: %s"
       [LVal (PStr "synth_log.csv");
        LExn (Exn OSError "Permission denied")]] /\
  w_file (handled demo_config refused_message fresh) = [] /\
  w_file (snd (serve_forever demo_config [refused_message; first_message]
                 fresh)) =
    [Line HeaderLine [PStr "Timestamp"; PStr "freq"; PStr "amp"];
     Line DataLine [PStr noon; PInt 440; PFloat 1061997773]].
Proof.
  assert (Hok : appended_ok first_message) by (split; [reflexivity|constructor]).
  destruct (@write_fault_is_contained demo_config refused_message first_message
              fresh (DiskFault "Permission denied") eq_refl eq_refl Hok)
    as (_ & Ht & _ & _ & _ & Hf).
  split; [exact Ht|]. split; [reflexivity|exact Hf].
Defined.

(** C5 fails as stated: a write that is cut short does not drop the
    record.  A part of its row stays at the end of the file, without a
    line end, and the row of the next message goes on in the same line of
    text. *)
Lemma cut_row_stays_in_the_file :
  faulted (w_file fresh) (in_faults cut_short_message) =
    Some (ShortWrite "No space left on device") /\
  w_file (handled demo_config cut_short_message fresh) =
    [Line HeaderLine [PStr "Timestamp"; PStr "freq"; PStr "amp"];
     Line CutLine [PStr "2024-05-01 11:59:57"; PInt 440; PFloat 1061997773]] /\
  w_file (handled demo_config cut_short_message fresh) <>
    w_file fresh ++ [header_line demo_config] /\
  w_file (handled demo_config cut_short_message fresh) <> w_file fresh /\
  w_file (snd (serve_forever demo_config [cut_short_message; first_message]
                 fresh)) =
    [Line HeaderLine [PStr "Timestamp"; PStr "freq"; PStr "amp"];
     Line CutLine [PStr "2024-05-01 11:59:57"; PInt 440; PFloat 1061997773];
     Line DataLine [PStr noon; PInt 440; PFloat 1061997773]].
Proof.
  split; [reflexivity|]. split; [reflexivity|].
  split; [vm_compute; discriminate|]. split; [vm_compute; discriminate|].
  reflexivity.
Qed.

(** ** The command emitter *)

Lemma add_events_nil (w : world) : add_events [] w = w.
Proof. destruct w. unfold add_events. simpl. now rewrite app_nil_r. Qed.

Lemma add_events_app (evs evs' : list event) (w : world) :
  add_events evs' (add_events evs w) = add_events (evs ++ evs') w.
Proof. unfold add_events. simpl. now rewrite app_assoc. Qed.

Lemma randint_bounds (a b draw : Z) :
  (a <= b)%Z -> (a <= randint a b draw <= b)%Z.
Proof.
  intros Hab. unfold randint.
  pose proof (Z.mod_pos_bound draw (b - a + 1)) as H. lia.
Qed.

(** One iteration whose send returns or raises an [Exception]. *)
Lemma emit_once_run (e : env) (c : Config) (i : nat) (w : world) :
  (forall x, env_send e i = Some x -> is_Exception x = true) ->
  emit_once e c i w = (Returned tt, add_events (iteration_events e c i) w).
Proof.
  intros Hx. unfold emit_once, iteration_events, send_event, send_message,
    logger, sleep, try_except, bind, emit, fallible, add_events.
  destruct (env_send e i) as [x|]; simpl.
  - rewrite (Hx x eq_refl). simpl. now rewrite <- !app_assoc.
  - now rewrite <- !app_assoc.
Qed.

(** One iteration whose send raises outside [Exception]: the exception
    leaves the loop body. *)
Lemma emit_once_interrupted (e : env) (c : Config) (i : nat) (w : world)
    (x : exn) :
  env_send e i = Some x -> is_Exception x = false ->
  fst (emit_once e c i w) = Raised x.
Proof.
  intros Hs Hx. unfold emit_once, send_message, logger, sleep, try_except,
    bind, emit, fallible.
  rewrite Hs. simpl. rewrite Hx. reflexivity.
Qed.

Lemma for_each_emit (e : env) (c : Config) (l : list nat) (w : world) :
  (forall i x, In i l -> env_send e i = Some x -> is_Exception x = true) ->
  for_each l (emit_once e c) w =
  (Returned tt, add_events (flat_map (iteration_events e c) l) w).
Proof.
  revert w. induction l as [|i l IH]; intros w Hx.
  - simpl. now rewrite add_events_nil.
  - simpl for_each. unfold bind.
    rewrite emit_once_run by (intros x; apply Hx; now left).
    rewrite IH by (intros j x Hj; apply Hx; now right).
    now rewrite add_events_app.
Qed.

Lemma emitter_loop_run (e : env) (c : Config) (w : world) :
  uninterrupted e c ->
  emitter_loop e c w =
  (Returned tt,
   add_events (flat_map (iteration_events e c) (range (max_randomizations c)))
     w).
Proof. intros Hu. unfold emitter_loop. now apply for_each_emit. Qed.

Lemma sends_app (t t' : list event) : sends (t ++ t') = sends t ++ sends t'.
Proof. unfold sends. apply filter_app. Qed.

Lemma sends_iterations (e : env) (c : Config) (l : list nat) :
  sends (flat_map (iteration_events e c) l) = map (send_event e) l.
Proof.
  induction l as [|i l IH]; simpl; [reflexivity|].
  rewrite sends_app, IH. unfold sends at 1.
  destruct (env_send e i); reflexivity.
Qed.

Lemma range_length (n : Z) : List.length (range n) = Z.to_nat n.
Proof. unfold range. apply length_seq. Qed.

Lemma Thread_start_run (e : env) (c : Config) (w : world) :
  Thread_start (start_osc_server e c) w =
  (Returned tt,
   {| w_trace := w_trace w; w_file := w_file w; w_now := w_now w;
      w_io_faults := w_io_faults w;
      w_thread := Some (listener_thread e c w) |}).
Proof.
  unfold Thread_start, listener_thread.
  destruct (start_osc_server e c _) as [o w']. reflexivity.
Qed.

(** [main] once the configuration is loaded and the client is built. *)
Lemma main_run (e : env) (c : Config) (w : world) :
  env_config e = Returned c -> env_client e = None -> uninterrupted e c ->
  main e w =
  (Returned tt,
   {| w_trace :=
        w_trace w ++
        flat_map (iteration_events e c) (range (max_randomizations c)) ++
        drain_events;
      w_file := w_file w; w_now := w_now w; w_io_faults := w_io_faults w;
      w_thread := Some (listener_thread e c w) |}).
Proof.
  intros Hc Hcl Hu. unfold main, try_except, load_config.
  unfold bind at 1. unfold try_except. rewrite Hc. cbn [ret].
  unfold bind at 1. rewrite Hcl. cbn [fallible ret].
  unfold bind at 1. rewrite Thread_start_run.
  unfold bind at 1. rewrite emitter_loop_run by exact Hu.
  unfold logger, sleep, bind, emit, add_events, drain_events. simpl.
  now rewrite <- !app_assoc.
Qed.

(** A bind that fails ends [start_osc_server] with that exception. *)
Lemma bind_failure_ends_listener (e : env) (c : Config) (w : world) (x : exn) :
  env_bind e = Some x ->
  th_outcome (listener_thread e c w) = Raised x /\
  th_file (listener_thread e c w) = w_file w /\
  th_trace (listener_thread e c w) =
    EvLog INFO "Starting OSC Server..." [] ::
    (if is_OSError x
     then [EvLog ERROR "Failed to start OSC server: %s" [LExn x]]
     else []).
Proof.
  intros Hb. unfold listener_thread, start_osc_server, try_except, bind,
    logger, emit. simpl. rewrite Hb. simpl.
  destruct (is_OSError x); simpl; repeat split; reflexivity.
Qed.

Lemma OSError_is_Exception (x : exn) :
  is_OSError x = true -> is_Exception x = true.
Proof.
  unfold is_OSError, is_Exception. destruct (exn_cls x); auto; discriminate.
Qed.

Lemma send_events_in_range (e : env) (l : list nat) (a : string) (v : Z) :
  In (EvSend a v) (map (send_event e) l) ->
  a = "/random" /\ (1 <= v <= 100)%Z.
Proof.
  intros Hin. apply in_map_iff in Hin as (i & Hi & _).
  assert (Hb : (1 <= randint 1 100 (env_random e i) <= 100)%Z)
    by (apply randint_bounds; lia).
  unfold send_event in Hi. injection Hi as <- <-. split; [reflexivity|].
  exact Hb.
Qed.

Lemma second_send_fails_uninterrupted (c : Config) :
  uninterrupted (env_of c None second_send_fails) c.
Proof.
  intros i x _. simpl. unfold second_send_fails.
  destruct (Nat.eqb i 1); [|discriminate].
  intros H. injection H as <-. reflexivity.
Defined.

(** C2: absent an interrupt, the loop of main makes exactly N calls of
    send_message, N being max_randomizations (none when N is negative),
    each to /random with an integer of 1..100, and then returns. *)
Theorem emitter_sends_exactly_N (e : env) (config : Config) (w : world) :
  uninterrupted e config ->
  let emitted :=
    flat_map (iteration_events e config) (range (max_randomizations config)) in
  fst (emitter_loop e config w) = Returned tt /\
  w_trace (snd (emitter_loop e config w)) = w_trace w ++ emitted /\
  sends emitted = map (send_event e) (range (max_randomizations config)) /\
  Z.of_nat (List.length (sends emitted)) = Z.max 0 (max_randomizations config) /\
  (forall a v, In (EvSend a v) (sends emitted) ->
               a = "/random" /\ (1 <= v <= 100)%Z).
Proof.
  intros Hu emitted. rewrite emitter_loop_run by exact Hu.
  unfold emitted. rewrite sends_iterations, length_map, range_length.
  split; [reflexivity|]. split; [reflexivity|]. split; [reflexivity|].
  split; [lia|].
  intros a v Hin. now apply send_events_in_range in Hin.
Qed.

Lemma emitter_sends_exactly_N_witness :
  sends (w_trace (snd (emitter_loop (env_of demo_config None second_send_fails)
                         demo_config fresh))) =
  [EvSend "/random" 100; EvSend "/random" 37; EvSend "/random" 74].
Proof.
  destruct (@emitter_sends_exactly_N (env_of demo_config None second_send_fails)
              demo_config fresh (second_send_fails_uninterrupted demo_config))
    as (_ & Ht & Hs & _).
  rewrite Ht. simpl w_trace. rewrite app_nil_l. rewrite Hs. reflexivity.
Defined.

(** C6: when sends of the loop raise network errors, each such fault is
    logged as an error and the loop goes on: whichever sends fail, the
    loop runs its N iterations, attempts every send in order, and
    returns. *)
Theorem failed_send_does_not_stop_loop (e : env) (config : Config) (w : world) :
  (forall i x, env_send e i = Some x -> is_OSError x = true) ->
  let emitted :=
    flat_map (iteration_events e config) (range (max_randomizations config)) in
  fst (emitter_loop e config w) = Returned tt /\
  w_trace (snd (emitter_loop e config w)) = w_trace w ++ emitted /\
  sends emitted = map (send_event e) (range (max_randomizations config)) /\
  List.length (sends emitted) = Z.to_nat (max_randomizations config) /\
  (forall i x,
      In i (range (max_randomizations config)) -> env_send e i = Some x ->
      In (EvLog ERROR "Failed to send OSC message: %s" [LExn x]) emitted).
Proof.
  intros Hnet emitted.
  assert (Hu : uninterrupted e config).
  { intros i x _ Hs. apply OSError_is_Exception. now apply (Hnet i). }
  rewrite emitter_loop_run by exact Hu.
  unfold emitted. rewrite sends_iterations, length_map, range_length.
  split; [reflexivity|]. split; [reflexivity|]. split; [reflexivity|].
  split; [reflexivity|].
  intros i x Hi Hs. apply in_flat_map. exists i. split; [exact Hi|].
  unfold iteration_events. rewrite Hs. simpl. auto.
Qed.

Lemma failed_send_does_not_stop_loop_witness :
  w_trace (snd (emitter_loop (env_of demo_config None second_send_fails)
                  demo_config fresh)) =
  [EvLog INFO "Sending Randomization Command to Max... (iteration %d/%d)"
     [LVal (PInt 1); LVal (PInt 3)];
   EvSend "/random" 100; EvSleep 10;
   EvLog INFO "Sending Randomization Command to Max... (iteration %d/%d)"
     [LVal (PInt 2); LVal (PInt 3)];
   EvSend "/random" 37;
   EvLog ERROR "Failed to send OSC message: %s"
     [LExn (Exn OSError "Network is unreachable")];
   EvLog INFO "Sending Randomization Command to Max... (iteration %d/%d)"
     [LVal (PInt 3); LVal (PInt 3)];
   EvSend "/random" 74; EvSleep 10].
Proof.
  assert (Hnet : forall i x,
             env_send (env_of demo_config None second_send_fails) i = Some x ->
             is_OSError x = true).
  { intros i x. simpl. unfold second_send_fails.
    destruct (Nat.eqb i 1); [|discriminate].
    intros H. injection H as <-. reflexivity. }
  destruct (@failed_send_does_not_stop_loop
              (env_of demo_config None second_send_fails) demo_config fresh Hnet)
    as (_ & Ht & _).
  rewrite Ht. reflexivity.
Defined.

(** ** The process orchestrator *)

(** C8, as the code has it: absent an interrupt, an iteration whose send
    goes through waits 10 ms right after the send, an iteration whose send
    raises logs the error and goes on without waiting, and after the last
    iteration main waits 500 ms and then completes. *)
Theorem waits_of_the_emitter (e : env) (config : Config) (w : world) :
  env_config e = Returned config -> env_client e = None ->
  uninterrupted e config ->
  fst (main e w) = Returned tt /\
  w_trace (snd (main e w)) =
    w_trace w ++
    flat_map (iteration_events e config) (range (max_randomizations config)) ++
    [EvLog INFO "Waiting for final responses..." []; EvSleep 500;
     EvLog INFO "Done." []] /\
  (forall i,
      env_send e i = None ->
      iteration_events e config i =
      [EvLog INFO "Sending Randomization Command to Max... (iteration %d/%d)"
         [LVal (PInt (Z.of_nat i + 1));
          LVal (PInt (max_randomizations config))];
       EvSend "/random" (randint 1 100 (env_random e i));
       EvSleep 10]) /\
  (forall i x,
      env_send e i = Some x ->
      iteration_events e config i =
      [EvLog INFO "Sending Randomization Command to Max... (iteration %d/%d)"
         [LVal (PInt (Z.of_nat i + 1));
          LVal (PInt (max_randomizations config))];
       EvSend "/random" (randint 1 100 (env_random e i));
       EvLog ERROR "Failed to send OSC message: %s" [LExn x]]).
Proof.
  intros Hc Hcl Hu. rewrite (main_run w Hc Hcl Hu).
  split; [reflexivity|]. split; [reflexivity|].
  split; [intros i Hs|intros i x Hs];
    unfold iteration_events; rewrite Hs; reflexivity.
Qed.

Lemma waits_of_the_emitter_witness :
  w_trace (snd (main (env_of (with_randomizations 2) None second_send_fails)
                  fresh)) =
  [EvLog INFO "Sending Randomization Command to Max... (iteration %d/%d)"
     [LVal (PInt 1); LVal (PInt 2)];
   EvSend "/random" 100; EvSleep 10;
   EvLog INFO "Sending Randomization Command to Max... (iteration %d/%d)"
     [LVal (PInt 2); LVal (PInt 2)];
   EvSend "/random" 37;
   EvLog ERROR "Failed to send OSC message: %s"
     [LExn (Exn OSError "Network is unreachable")];
   EvLog INFO "Waiting for final responses..." []; EvSleep 500;
   EvLog INFO "Done." []].
Proof.
  destruct (@waits_of_the_emitter
              (env_of (with_randomizations 2) None second_send_fails)
              (with_randomizations 2) fresh eq_refl eq_refl
              (second_send_fails_uninterrupted (with_randomizations 2)))
    as (_ & Ht & _).
  rewrite Ht. reflexivity.
Defined.

(** C8 fails as stated: the wait of 10 ms is inside the try block, after
    the send, so an iteration whose send raises has no wait. *)
Lemma no_wait_after_failed_send :
  w_trace (snd (main lone_failure_env fresh)) =
    [EvLog INFO "Sending Randomization Command to Max... (iteration %d/%d)"
       [LVal (PInt 1); LVal (PInt 1)];
     EvSend "/random" 100;
     EvLog ERROR "Failed to send OSC message: %s"
       [LExn (Exn OSError "Network is unreachable")];
     EvLog INFO "Waiting for final responses..." []; EvSleep 500;
     EvLog INFO "Done." []] /\
  ~ In (EvSleep 10) (w_trace (snd (main lone_failure_env fresh))).
Proof.
  split; [reflexivity|].
  vm_compute. intros H.
  repeat (destruct H as [H|H]; [discriminate H|]). exact H.
Qed.

(** C10: when max_randomizations is zero or negative, and the
    configuration loads and the client is built, the loop sends nothing,
    and main still logs, waits the 500 ms and returns normally, so that
    the process ends with status 0. *)
Theorem no_randomizations_no_sends (e : env) (config : Config) (w : world) :
  env_config e = Returned config -> env_client e = None ->
  (max_randomizations config <= 0)%Z ->
  emitter_loop e config w = (Returned tt, w) /\
  fst (main e w) = Returned tt /\
  exit_status (fst (main e w)) = 0%Z /\
  w_trace (snd (main e w)) =
    w_trace w ++
    [EvLog INFO "Waiting for final responses..." []; EvSleep 500;
     EvLog INFO "Done." []] /\
  sends (w_trace (snd (main e w))) = sends (w_trace w).
Proof.
  intros Hc Hcl Hn.
  assert (Hr : range (max_randomizations config) = []).
  { unfold range. replace (Z.to_nat (max_randomizations config)) with 0%nat
      by lia. reflexivity. }
  assert (Hu : uninterrupted e config).
  { intros i x Hi. rewrite Hr in Hi. destruct Hi. }
  split.
  { unfold emitter_loop. rewrite Hr. reflexivity. }
  rewrite (main_run w Hc Hcl Hu), Hr. simpl.
  split; [reflexivity|]. split; [reflexivity|]. split; [reflexivity|].
  rewrite sends_app. simpl. now rewrite app_nil_r.
Qed.

Lemma no_randomizations_no_sends_witness :
  w_trace (snd (main (env_of (with_randomizations (-2)) None (fun _ => None))
                  fresh)) =
    [EvLog INFO "Waiting for final responses..." []; EvSleep 500;
     EvLog INFO "Done." []] /\
  exit_status (fst (main (env_of (with_randomizations 0) None (fun _ => None))
                      fresh)) = 0%Z.
Proof.
  assert (H2 : (max_randomizations (with_randomizations (-2)) <= 0)%Z)
    by (simpl; lia).
  assert (H0 : (max_randomizations (with_randomizations 0) <= 0)%Z)
    by (simpl; lia).
  destruct (@no_randomizations_no_sends
              (env_of (with_randomizations (-2)) None (fun _ => None))
              (with_randomizations (-2)) fresh eq_refl eq_refl H2)
    as (_ & _ & _ & Ht & _).
  destruct (@no_randomizations_no_sends
              (env_of (with_randomizations 0) None (fun _ => None))
              (with_randomizations 0) fresh eq_refl eq_refl H0)
    as (_ & _ & Hs & _).
  split; [exact Ht|exact Hs].
Defined.

(** C7, as the code has it: when the listener's bind fails, the fault is
    logged (if it is an OSError) and leaves start_osc_server, which ends
    the listener thread; it does not reach main.  The command emitter
    runs its N iterations and, absent an interrupt, main completes
    normally and the process ends with status 0. *)
Theorem bind_failure_ends_only_the_listener
    (e : env) (config : Config) (w : world) (x : exn) :
  env_config e = Returned config -> env_client e = None ->
  uninterrupted e config ->
  env_bind e = Some x ->
  fst (start_osc_server e config w) = Raised x /\
  w_thread (snd (main e w)) = Some (listener_thread e config w) /\
  th_outcome (listener_thread e config w) = Raised x /\
  th_trace (listener_thread e config w) =
    EvLog INFO "Starting OSC Server..." [] ::
    (if is_OSError x
     then [EvLog ERROR "Failed to start OSC server: %s" [LExn x]]
     else []) /\
  fst (main e w) = Returned tt /\
  exit_status (fst (main e w)) = 0%Z /\
  w_trace (snd (main e w)) =
    w_trace w ++
    flat_map (iteration_events e config) (range (max_randomizations config)) ++
    drain_events /\
  sends (flat_map (iteration_events e config)
           (range (max_randomizations config))) =
    map (send_event e) (range (max_randomizations config)).
Proof.
  intros Hc Hcl Hu Hb.
  destruct (bind_failure_ends_listener e config w Hb) as (Ho & _ & Ht).
  split.
  { unfold start_osc_server, try_except, bind, logger, emit. simpl.
    rewrite Hb. simpl. destruct (is_OSError x); reflexivity. }
  rewrite (main_run w Hc Hcl Hu). simpl.
  split; [reflexivity|]. split; [exact Ho|]. split; [exact Ht|].
  split; [reflexivity|]. split; [reflexivity|]. split; [reflexivity|].
  apply sends_iterations.
Qed.

Lemma bind_failure_ends_only_the_listener_witness :
  th_outcome (listener_thread bind_fails_env demo_config fresh) =
    Raised (Exn OSError "Address already in use") /\
  th_trace (listener_thread bind_fails_env demo_config fresh) =
    [EvLog INFO "Starting OSC Server..." [];
     EvLog ERROR "Failed to start OSC server: %s"
       [LExn (Exn OSError "Address already in use")]] /\
  fst (main bind_fails_env fresh) = Returned tt /\
  List.length (sends (w_trace (snd (main bind_fails_env fresh)))) = 3.
Proof.
  assert (Hu : uninterrupted bind_fails_env demo_config).
  { intros i x _ H. discriminate H. }
  destruct (@bind_failure_ends_only_the_listener bind_fails_env demo_config
              fresh (Exn OSError "Address already in use")
              eq_refl eq_refl Hu eq_refl)
    as (_ & _ & Ho & Hl & Hm & _ & Ht & Hs).
  split; [exact Ho|]. split; [exact Hl|]. split; [exact Hm|].
  rewrite Ht. simpl w_trace. rewrite app_nil_l, sends_app, Hs. reflexivity.
Defined.

(** C7 fails as stated: a bind that fails in the listener thread leaves
    main untouched, which completes and lets the process end with
    status 0. *)
Lemma bind_failure_does_not_abort :
  env_bind bind_fails_env = Some (Exn OSError "Address already in use") /\
  fst (main bind_fails_env fresh) = Returned tt /\
  exit_status (fst (main bind_fails_env fresh)) = 0%Z /\
  last (w_trace (snd (main bind_fails_env fresh))) (EvSleep 0) =
    EvLog INFO "Done." [].
Proof.
  repeat split; reflexivity.
Qed.

(** The end-to-end scenario of the specification: parameters freq and
    amp, three randomizations, one message [true, 440, 0.8]. *)
Example end_to_end_scenario :
  option_map th_file (w_thread (snd (main scenario_env fresh))) =
    Some [Line HeaderLine [PStr "Timestamp"; PStr "freq"; PStr "amp"];
          Line DataLine [PStr noon; PInt 440; PFloat 1061997773]] /\
  sends (w_trace (snd (main scenario_env fresh))) =
    [EvSend "/random" 1; EvSend "/random" 2; EvSend "/random" 3] /\
  fst (main scenario_env fresh) = Returned tt.
Proof.
  repeat split; reflexivity.
Qed.

(** * Further properties of the code *)

(** ** The log file under arbitrary messages and faults *)

(** What one message adds to the file, in numbers: at most one header and
    at most one whole row, and a header only together with a file that
    has a line afterwards. *)
Lemma handled_growth (c : Config) (m : inbound) (w : world) :
  exists extra,
    w_file (handled c m w) = w_file w ++ extra /\
    (header_count extra <= 1)%nat /\
    (List.length (data_lines extra) <= 1)%nat /\
    (header_count extra = 0%nat \/ w_file (handled c m w) <> []).
Proof.
  destruct (selected m) eqn:Hs.
  - destruct (faulted (w_file w) (in_faults m)) as [f|] eqn:Hq.
    + destruct (handled_faulted_selected c m w Hs Hq)
        as (_ & left & Hf & Hleft).
      exists left. split; [exact Hf|].
      rewrite (left_by_fault_no_row Hleft). rewrite Hf.
      destruct Hleft as [->|[[He [->|[->| ->]]]|[Hne ->]]]; cbn;
        repeat split; try lia; try (now left);
        right; rewrite He; discriminate.
    + destruct (handled_clean_selected c m w Hs Hq) as (Hf & _).
      exists (new_lines c (w_file w) (in_time m) (in_args m)).
      split; [exact Hf|]. rewrite Hf. unfold new_lines.
      destruct (w_file w) as [|l file]; cbn; repeat split; try lia;
        right; discriminate.
  - destruct (handled_ignored c m w Hs) as (Hf & _).
    exists []. rewrite app_nil_r. cbn. repeat split; auto.
Qed.

Lemma handled_trace_growth (c : Config) (m : inbound) (w : world) :
  exists extra,
    w_trace (handled c m w) = w_trace w ++ extra /\
    (List.length extra <= 1)%nat.
Proof.
  destruct (selected m) eqn:Hs.
  - destruct (faulted (w_file w) (in_faults m)) as [f|] eqn:Hq.
    + destruct (handled_faulted_selected c m w Hs Hq) as (Ht & _).
      exists [fault_record c f]. split; [exact Ht|simpl; lia].
    + destruct (handled_clean_selected c m w Hs Hq) as (_ & Ht).
      exists [debug_record c (in_args m)]. split; [exact Ht|simpl; lia].
  - destruct (handled_ignored c m w Hs) as (_ & Ht).
    exists []. rewrite app_nil_r. split; [exact Ht|simpl; lia].
Qed.

Lemma data_lines_app (f g : list csv_line) :
  data_lines (f ++ g) = data_lines f ++ data_lines g.
Proof. unfold data_lines. apply filter_app. Qed.

Lemma full_row_data_line (c : Config) (ts : string) (args : list pyval) :
  full_row c (data_line c ts args).
Proof.
  unfold full_row, data_line. cbn [line_kind_of cells].
  split; [reflexivity|apply length_map].
Qed.

(** The log is append-only.  Whatever messages the library hands over
    (whatever their addresses and arguments, alone or in bundles) and
    whatever file operations are refused or cut short, the listener leaves
    the former content of the file in place and adds after it at most one
    header and at most one whole data row per message. *)
Theorem log_is_append_only (config : Config) (ms : list inbound) (w : world) :
  exists extra,
    w_file (snd (serve_forever config ms w)) = w_file w ++ extra /\
    (header_count extra <= 1)%nat /\
    (List.length (data_lines extra) <= List.length ms)%nat.
Proof.
  revert w. induction ms as [|m ms IH]; intros w.
  - exists []. simpl. rewrite app_nil_r. repeat split; auto.
  - rewrite serve_cons.
    destruct (IH (handled config m w)) as (extra2 & Hf2 & Hh2 & Hd2).
    destruct (handled_growth config m w)
      as (extra1 & Hf1 & Hh1 & Hd1 & Hcases).
    exists (extra1 ++ extra2). rewrite Hf2, Hf1, <- app_assoc.
    split; [reflexivity|].
    rewrite header_count_app, data_lines_app, length_app.
    split; [|simpl; lia].
    destruct Hcases as [Hz|Hne]; [lia|].
    pose proof (@serve_nonempty config ms _ Hne) as Hc.
    rewrite Hf2, header_count_app in Hc. lia.
Qed.

Lemma faulted_in (file : list csv_line) (fs : list (option io_fault))
    (f : io_fault) :
  faulted file fs = Some f -> In (Some f) fs.
Proof.
  unfold faulted.
  destruct fs as [|[f1|] [|[f2|] [|[f3|] r]]]; try discriminate;
    try (intros H; injection H as <-; simpl; tauto).
  destruct (is_empty file); [|discriminate].
  intros H; injection H as <-; simpl; tauto.
Qed.

(** A fault that is a refusal or an encoding error leaves whole lines
    only. *)
Lemma handler_faulted_whole (a : string) (args : list pyval) (c : Config)
    (w : world) (f : io_fault) :
  faulted (w_file w) (w_io_faults w) = Some f ->
  no_short_write (w_io_faults w) ->
  w_file (snd (log_synth_settings a args c w)) = w_file w \/
  (w_file w = [] /\
   w_file (snd (log_synth_settings a args c w)) = [header_line c]).
Proof.
  intros Hq Hns.
  assert (Hf : forall msg, f <> ShortWrite msg).
  { intros msg ->. apply (Hns msg). now apply faulted_in in Hq. }
  run_handler c w args.
  destruct w as [tr file now fs th]. simpl in *.
  destruct fs as [|[f1|] [|[f2|] [|[f3|] r]]]; destruct file as [|l file];
    simpl in Hq; try discriminate; injection Hq as <-;
    repeat match goal with g : io_fault |- _ => destruct g end;
    try (exfalso; eapply Hf; reflexivity); simpl; auto.
Qed.

Lemma handled_keeps_shape (c : Config) (m : inbound) (w : world) :
  no_short_write (in_faults m) ->
  log_shape c (w_file w) -> log_shape c (w_file (handled c m w)).
Proof.
  intros Hns Hshape.
  destruct (selected m) eqn:Hs.
  - destruct (faulted (w_file w) (in_faults m)) as [f|] eqn:Hq.
    + unfold handled, bind, arrive. rewrite (deliver_selected c m Hs).
      match goal with |- context [log_synth_settings ?a ?args c ?w0] =>
        destruct (@handler_faulted_whole a args c w0 f Hq Hns)
          as [Hf|[He Hf]]; rewrite Hf
      end.
      * exact Hshape.
      * right. exists []. split; [reflexivity|constructor].
    + destruct (handled_clean_selected c m w Hs Hq) as (-> & _).
      unfold new_lines. destruct Hshape as [->|(rows & -> & Hrows)].
      * right. exists [data_line c (in_time m) (in_args m)]. split.
        -- reflexivity.
        -- constructor; [apply full_row_data_line|constructor].
      * right. exists (rows ++ [data_line c (in_time m) (in_args m)]). split.
        -- reflexivity.
        -- apply Forall_app. split; [exact Hrows|].
           constructor; [apply full_row_data_line|constructor].
  - destruct (handled_ignored c m w Hs) as (-> & _). exact Hshape.
Qed.

(** As long as no write is cut short, the log file stays a well-formed
    table.  Whatever the messages (too few arguments, too many, none) and
    whatever file operations are refused or fail to encode, a file that is
    empty or a header followed by full data rows remains so: it gets no
    second header, no header after a row, and no row with fewer or more
    cells than the header. *)
Theorem log_stays_rectangular (config : Config) (ms : list inbound) (w : world) :
  Forall (fun m => no_short_write (in_faults m)) ms ->
  log_shape config (w_file w) ->
  log_shape config (w_file (snd (serve_forever config ms w))).
Proof.
  intros Hns. revert w. induction Hns as [|m ms Hm Hns IH]; intros w Hs.
  - exact Hs.
  - rewrite serve_cons. apply IH. now apply handled_keeps_shape.
Qed.

Lemma log_stays_rectangular_witness :
  log_shape demo_config
    (w_file (snd (serve_forever demo_config
                    [refused_message; half_written_message; short_message]
                    fresh))) /\
  w_file (snd (serve_forever demo_config
                 [refused_message; half_written_message; short_message]
                 fresh)) =
    [Line HeaderLine [PStr "Timestamp"; PStr "freq"; PStr "amp"];
     Line DataLine [PStr noon; PInt 440; PStr ""]].
Proof.
  assert (Hns : Forall (fun m => no_short_write (in_faults m))
                  [refused_message; half_written_message; short_message]).
  { repeat constructor; intros msg Hin; simpl in Hin;
      repeat (destruct Hin as [Hin|Hin]; [discriminate Hin|]); exact Hin. }
  split.
  - apply (@log_stays_rectangular demo_config
             [refused_message; half_written_message; short_message] fresh Hns).
    left. reflexivity.
  - reflexivity.
Defined.

(** ** The cells of a data row *)

Lemma dict_get_default_nil (ks : list string) (d : pyval) :
  map (fun k => Dict.get_default k d []) ks = repeat d (List.length ks).
Proof.
  induction ks as [|k ks IH]; simpl; [reflexivity|]. now rewrite IH.
Qed.

Lemma dict_get_default_padded (ks : list string) (vs : list pyval) (d : pyval) :
  NoDup ks ->
  map (fun k => Dict.get_default k d (combine ks vs)) ks =
  firstn (List.length ks) vs ++ repeat d (List.length ks - List.length vs).
Proof.
  revert vs. induction ks as [|k ks IH]; intros vs Hnd.
  - reflexivity.
  - inversion Hnd as [|x l Hk Hnd']; subst.
    destruct vs as [|v vs].
    + change (combine (k :: ks) []) with (@nil (string * pyval)).
      rewrite firstn_nil, Nat.sub_0_r. apply dict_get_default_nil.
    + simpl. unfold Dict.get_default at 1. simpl. rewrite String.eqb_refl.
      f_equal. rewrite <- (IH vs Hnd').
      apply map_ext_in. intros k' Hk'. unfold Dict.get_default. simpl.
      destruct (String.eqb k' k) eqn:E; [|reflexivity].
      apply String.eqb_eq in E. subst. contradiction.
Qed.

Lemma combine_keys_nodup {B : Type} (ks : list string) (vs : list B) :
  NoDup ks -> NoDup (map fst (combine ks vs)).
Proof.
  revert vs. induction ks as [|k ks IH]; intros [|v vs] Hnd; simpl;
    try apply NoDup_nil.
  inversion Hnd as [|x l Hk Hnd']; subst. apply NoDup_cons.
  - intros Hin. apply combine_keys_incl in Hin. contradiction.
  - now apply IH.
Qed.

(** With pairwise distinct column names (Timestamp and the configured
    parameters), the data row of a message is the timestamp, then the
    arguments after the framing flag cut at the number of parameters, then
    empty cells up to that number: missing values render empty and extra
    values never reach the file. *)
Theorem row_is_cut_and_padded (config : Config) (ts : string) (args : list pyval) :
  NoDup (fieldnames config) ->
  data_line config ts args =
  Line DataLine
    (PStr ts ::
     firstn (List.length (synth_params config)) (settings_of args) ++
     repeat (PStr "")
       (List.length (synth_params config) - List.length (settings_of args))).
Proof.
  intros Hnd. unfold data_line. f_equal.
  inversion Hnd as [|x l Hts Hnd']; subst.
  assert (Hrd : rowdict ts (settings_dict config args) =
                ("Timestamp", PStr ts) ::
                combine (synth_params config) (settings_of args)).
  { unfold rowdict, settings_dict.
    rewrite dict_of_pairs_nodup by now apply combine_keys_nodup.
    rewrite dict_update_nodup; [reflexivity|].
    simpl. apply NoDup_cons; [|now apply combine_keys_nodup].
    intros Hin. apply combine_keys_incl in Hin. contradiction. }
  rewrite Hrd. unfold fieldnames. cbn [map].
  unfold Dict.get_default at 1. simpl Dict.get. f_equal.
  rewrite <- (dict_get_default_padded (settings_of args) (PStr "") Hnd').
  apply map_ext_in. intros k Hk. unfold Dict.get_default. simpl.
  destruct (String.eqb k "Timestamp") eqn:E; [|reflexivity].
  apply String.eqb_eq in E. subst. contradiction.
Qed.

Lemma row_is_cut_and_padded_witness :
  data_line demo_config noon short_args =
    Line DataLine [PStr noon; PInt 440; PStr ""] /\
  data_line demo_config noon (demo_args ++ [PInt 7; PInt 8]) =
    Line DataLine [PStr noon; PInt 440; PFloat 1061997773].
Proof.
  assert (Hnd : NoDup (fieldnames demo_config)).
  { apply NoDup_cons; [simpl; intros [H|[H|[]]]; discriminate|].
    apply NoDup_cons; [simpl; intros [H|[]]; discriminate|].
    apply NoDup_cons; [simpl; tauto|apply NoDup_nil]. }
  split.
  - rewrite (@row_is_cut_and_padded demo_config noon short_args Hnd).
    reflexivity.
  - rewrite (@row_is_cut_and_padded demo_config noon
               (demo_args ++ [PInt 7; PInt 8]) Hnd).
    reflexivity.
Defined.

(** A dictionary holds each key once. *)
Lemma dict_set_keys_nodup (k : string) (v : pyval) (d : Dict.t pyval) :
  NoDup (Dict.keys d) -> NoDup (Dict.keys (Dict.set k v d)).
Proof.
  induction d as [|[k0 v0] d IH]; simpl; intros Hnd.
  - apply NoDup_cons; [intros []|apply NoDup_nil].
  - inversion Hnd as [|x l Hk0 Hnd']; subst.
    destruct (String.eqb k k0) eqn:E; simpl.
    + apply String.eqb_eq in E. subst. exact Hnd.
    + apply NoDup_cons; [|now apply IH].
      intros Hin. apply dict_keys_set in Hin. destruct Hin as [<-|Hin].
      * now rewrite String.eqb_refl in E.
      * contradiction.
Qed.

Lemma dict_update_keys_nodup (acc : Dict.t pyval) (ps : list (string * pyval)) :
  NoDup (Dict.keys acc) -> NoDup (Dict.keys (Dict.update acc ps)).
Proof.
  revert acc. induction ps as [|[k v] ps IH]; intros acc Hnd.
  - exact Hnd.
  - rewrite dict_update_cons. apply IH. now apply dict_set_keys_nodup.
Qed.

Lemma dict_get_absent (k : string) (d : Dict.t pyval) :
  ~ In k (Dict.keys d) -> Dict.get k d = None.
Proof.
  induction d as [|[k0 v0] d IH]; simpl; intros Hk; [reflexivity|].
  destruct (String.eqb k k0) eqn:E.
  - apply String.eqb_eq in E. subst. tauto.
  - apply IH. tauto.
Qed.

(** Merging a dictionary into another: its entries win. *)
Lemma dict_get_merge (k : string) (acc d : Dict.t pyval) :
  NoDup (Dict.keys d) ->
  Dict.get k (Dict.update acc d) =
  match Dict.get k d with
  | Some v => Some v
  | None => Dict.get k acc
  end.
Proof.
  revert acc. induction d as [|[k0 v0] d IH]; intros acc Hnd.
  - reflexivity.
  - inversion Hnd as [|x l Hk0 Hnd']; subst.
    rewrite dict_update_cons, (IH _ Hnd'), dict_get_set. simpl.
    destruct (String.eqb k k0) eqn:E; [|reflexivity].
    apply String.eqb_eq in E. subst.
    now rewrite (dict_get_absent _ _ Hk0).
Qed.

Lemma settings_dict_keys_nodup (c : Config) (args : list pyval) :
  NoDup (Dict.keys (settings_dict c args)).
Proof.
  unfold settings_dict, Dict.of_pairs. apply dict_update_keys_nodup.
  apply NoDup_nil.
Qed.

(** A parameter named Timestamp takes the place of the time.  When the
    record built from the message has a value under the key Timestamp,
    every cell of the row in a column named Timestamp, the first one
    included, holds that value, and the time of logging is not in the
    row's first cell. *)
Theorem timestamp_parameter_replaces_time
    (config : Config) (ts : string) (args : list pyval) (v : pyval) :
  Dict.get "Timestamp" (settings_dict config args) = Some v ->
  hd_error (cells (data_line config ts args)) = Some v /\
  (forall i,
      nth_error (fieldnames config) i = Some "Timestamp" ->
      nth_error (cells (data_line config ts args)) i = Some v).
Proof.
  intros Hv.
  assert (Hget : Dict.get "Timestamp" (rowdict ts (settings_dict config args))
                 = Some v).
  { unfold rowdict.
    rewrite dict_get_merge by apply settings_dict_keys_nodup.
    now rewrite Hv. }
  assert (Hnth : forall i,
             nth_error (fieldnames config) i = Some "Timestamp" ->
             nth_error (cells (data_line config ts args)) i = Some v).
  { intros i Hi. unfold data_line. cbn [cells].
    rewrite nth_error_map, Hi. simpl. unfold Dict.get_default.
    now rewrite Hget. }
  split; [|exact Hnth].
  specialize (Hnth 0 eq_refl). unfold data_line in *. cbn [cells] in *.
  unfold fieldnames in *. simpl in *. exact Hnth.
Qed.

Lemma timestamp_parameter_replaces_time_witness :
  data_line stamp_config noon stamp_args =
    Line DataLine [PStr "never"; PStr "never"; PInt 440] /\
  hd_error (cells (data_line stamp_config noon stamp_args)) =
    Some (PStr "never").
Proof.
  split; [reflexivity|].
  exact (proj1 (@timestamp_parameter_replaces_time stamp_config noon stamp_args
                  (PStr "never") eq_refl)).
Defined.

(** ** What reaches the console *)

Lemma console_app (t t' : list event) : console (t ++ t') = console t ++ console t'.
Proof. unfold console. apply filter_app. Qed.

Lemma console_fault_record (c : Config) (f : io_fault) :
  console [fault_record c f] = [fault_record c f].
Proof. destruct f; reflexivity. Qed.

(** With the logging level set to INFO at start-up, handling a message of
    the route prints nothing when the row is written (the record is logged
    at debug level only), and prints exactly one error record when a file
    operation fails. *)
Theorem only_faults_reach_the_console (config : Config) (m : inbound) (w : world) :
  in_address m = synth_settings_route ->
  console (w_trace (handled config m w)) =
  console (w_trace w) ++
  match faulted (w_file w) (in_faults m) with
  | Some f => [fault_record config f]
  | None => []
  end.
Proof.
  intros Hr. destruct (faulted (w_file w) (in_faults m)) as [f|] eqn:Hq.
  - destruct (handled_faulted config m w Hr Hq) as (-> & _).
    now rewrite console_app, console_fault_record.
  - destruct (handled_clean config m w Hr Hq) as (_ & ->).
    rewrite console_app. reflexivity.
Qed.

Lemma only_faults_reach_the_console_witness :
  console (w_trace (handled demo_config first_message fresh)) = [] /\
  console (w_trace (handled demo_config half_written_message fresh)) =
    [EvLog ERROR "Unexpected error while logging synth settings: %s"
       [LExn (Exn UnicodeEncodeError "ascii codec")]].
Proof.
  split.
  - exact (@only_faults_reach_the_console demo_config first_message fresh
             eq_refl).
  - exact (@only_faults_reach_the_console demo_config half_written_message
             fresh eq_refl).
Defined.

(** ** The listener once it is bound *)

Lemma serve_trace_growth (c : Config) (ms : list inbound) (w : world) :
  exists extra,
    w_trace (snd (serve_forever c ms w)) = w_trace w ++ extra /\
    (List.length extra <= List.length ms)%nat.
Proof.
  revert w. induction ms as [|m ms IH]; intros w.
  - exists []. simpl. rewrite app_nil_r. split; [reflexivity|lia].
  - rewrite serve_cons.
    destruct (IH (handled c m w)) as (extra2 & Ht2 & Hl2).
    destruct (handled_trace_growth c m w) as (extra1 & Ht1 & Hl1).
    exists (extra1 ++ extra2). rewrite Ht2, Ht1, <- app_assoc.
    split; [reflexivity|]. rewrite length_app. simpl. lia.
Qed.

Lemma start_osc_server_bound (e : env) (c : Config) (w : world) :
  env_bind e = None ->
  start_osc_server e c w =
  serve_forever c (env_inbound e)
    (add_events
       [EvLog INFO "Starting OSC Server..." [];
        EvLog INFO "Listening on %s:%s for synth settings"
          [LVal (PStr (max_ip c)); LVal (PInt (max_receive_port c))]] w).
Proof.
  intros Hb. unfold start_osc_server, try_except, bind, logger, emit, fallible.
  rewrite Hb. unfold ret, add_events. simpl. rewrite <- app_assoc. simpl.
  match goal with |- context [serve_forever c (env_inbound e) ?w0] =>
    pose proof (serve_returns c (env_inbound e) w0) as Hret;
    destruct (serve_forever c (env_inbound e) w0) as [[[]|x] w']
  end; simpl in Hret; [reflexivity|discriminate].
Qed.

Lemma bound_listener_returns (e : env) (c : Config) (w : world) :
  env_bind e = None -> th_outcome (listener_thread e c w) = Returned tt.
Proof.
  intros Hb. unfold listener_thread.
  rewrite (@start_osc_server_bound e c _ Hb).
  match goal with |- context [serve_forever c (env_inbound e) ?w0] =>
    pose proof (serve_returns c (env_inbound e) w0) as Hret;
    destruct (serve_forever c (env_inbound e) w0) as [o w']
  end.
  exact Hret.
Qed.

(** Once the bind has succeeded, nothing that arrives stops the listener.
    Whatever messages the library hands over (whatever their addresses
    and arguments, alone or in bundles) and whatever file operations fail,
    the listener thread does not end with an exception, and after its two
    start-up records it logs at most one record per message. *)
Theorem bound_listener_keeps_serving (e : env) (config : Config) (w : world) :
  env_bind e = None ->
  th_outcome (listener_thread e config w) = Returned tt /\
  (exists records,
      th_trace (listener_thread e config w) =
        [EvLog INFO "Starting OSC Server..." [];
         EvLog INFO "Listening on %s:%s for synth settings"
           [LVal (PStr (max_ip config));
            LVal (PInt (max_receive_port config))]] ++ records /\
      (List.length records <= List.length (env_inbound e))%nat).
Proof.
  intros Hb. unfold listener_thread.
  rewrite (@start_osc_server_bound e config _ Hb).
  match goal with |- context [serve_forever config (env_inbound e) ?w0] =>
    pose proof (serve_returns config (env_inbound e) w0) as Hret;
    pose proof (serve_trace_growth config (env_inbound e) w0) as Htr;
    destruct (serve_forever config (env_inbound e) w0) as [o w']
  end.
  simpl in *. split; [exact Hret|].
  destruct Htr as (records & Ht & Hl). exists records. now split.
Qed.

Lemma bound_listener_keeps_serving_witness :
  th_outcome (listener_thread scenario_env demo_config fresh) = Returned tt /\
  th_file (listener_thread scenario_env demo_config fresh) =
    [Line HeaderLine [PStr "Timestamp"; PStr "freq"; PStr "amp"];
     Line DataLine [PStr noon; PInt 440; PFloat 1061997773]].
Proof.
  split; [|reflexivity].
  exact (proj1 (@bound_listener_keeps_serving scenario_env demo_config fresh
                  eq_refl)).
Defined.

(** ** Start-up failures of [main] *)

Lemma Exception_is_not_interrupt (x : exn) :
  is_Exception x = true -> is_KeyboardInterrupt x = false.
Proof.
  unfold is_Exception, is_KeyboardInterrupt.
  destruct (exn_cls x); auto; discriminate.
Qed.

Lemma sends_load_failure_records (x : exn) :
  sends (load_failure_records x) = [].
Proof.
  unfold load_failure_records.
  destruct (is_FileNotFoundError x); [reflexivity|].
  destruct (is_YAMLError x); reflexivity.
Qed.

(** A configuration that cannot be loaded aborts the process before any
    network activity.  When reading config.yml raises an Exception, main
    raises the same exception and the process ends with a status other
    than zero; no listener thread is started and nothing is sent.  The
    failure is logged as an application error, after the record of
    load_config itself when the file is missing or is not valid YAML. *)
Theorem config_failure_aborts_before_network (e : env) (w : world) (x : exn) :
  env_config e = Raised x -> is_Exception x = true ->
  fst (main e w) = Raised x /\
  exit_status (fst (main e w)) <> 0%Z /\
  w_trace (snd (main e w)) =
    w_trace w ++ load_failure_records x ++
    [EvLog ERROR "Application error: %s" [LExn x]] /\
  w_thread (snd (main e w)) = w_thread w /\
  sends (w_trace (snd (main e w))) = sends (w_trace w).
Proof.
  intros Hc Hx.
  pose proof (Exception_is_not_interrupt x Hx) as Hki.
  assert (Hrun : main e w =
            (Raised x,
             add_events (load_failure_records x ++
                         [EvLog ERROR "Application error: %s" [LExn x]]) w)).
  { unfold main, try_except, bind, load_config, try_except. rewrite Hc.
    unfold raise, load_failure_records, logger, emit, add_events. simpl.
    destruct (is_FileNotFoundError x); simpl.
    - rewrite Hki, Hx. simpl. now rewrite <- app_assoc.
    - destruct (is_YAMLError x); simpl; rewrite Hki, Hx; simpl;
        now rewrite <- ?app_assoc. }
  rewrite Hrun. simpl.
  split; [reflexivity|]. split; [discriminate|]. split; [reflexivity|].
  split; [reflexivity|].
  rewrite !sends_app, sends_load_failure_records. simpl.
  now rewrite app_nil_r.
Qed.

Lemma config_failure_aborts_before_network_witness :
  fst (main missing_config_env fresh) =
    Raised (Exn FileNotFoundError "config.yml") /\
  w_trace (snd (main missing_config_env fresh)) =
    [EvLog ERROR "Config file 'config.yml' not found" [];
     EvLog ERROR "Application error: %s"
       [LExn (Exn FileNotFoundError "config.yml")]] /\
  w_thread (snd (main missing_config_env fresh)) = None.
Proof.
  destruct (@config_failure_aborts_before_network missing_config_env fresh
              (Exn FileNotFoundError "config.yml") eq_refl eq_refl)
    as (Ho & _ & Ht & Hth & _).
  split; [exact Ho|]. split; [exact Ht|exact Hth].
Defined.

(** The client is built before the listener is started.  When building
    the UDP client raises an Exception, main logs it as an application
    error and raises it again; the listener thread is never started and
    nothing is sent. *)
Theorem client_failure_starts_nothing
    (e : env) (config : Config) (w : world) (x : exn) :
  env_config e = Returned config -> env_client e = Some x ->
  is_Exception x = true ->
  fst (main e w) = Raised x /\
  exit_status (fst (main e w)) <> 0%Z /\
  w_trace (snd (main e w)) =
    w_trace w ++ [EvLog ERROR "Application error: %s" [LExn x]] /\
  w_thread (snd (main e w)) = w_thread w /\
  sends (w_trace (snd (main e w))) = sends (w_trace w).
Proof.
  intros Hc Hcl Hx.
  pose proof (Exception_is_not_interrupt x Hx) as Hki.
  assert (Hrun : main e w =
            (Raised x,
             add_events [EvLog ERROR "Application error: %s" [LExn x]] w)).
  { unfold main, try_except, bind, load_config, try_except. rewrite Hc, Hcl.
    unfold raise, fallible, logger, emit, add_events. simpl.
    now rewrite Hki, Hx. }
  rewrite Hrun. simpl.
  split; [reflexivity|]. split; [discriminate|]. split; [reflexivity|].
  split; [reflexivity|].
  rewrite sends_app. simpl. now rewrite app_nil_r.
Qed.

Lemma client_failure_starts_nothing_witness :
  fst (main no_client_env fresh) =
    Raised (Exn OSError "Name or service not known") /\
  w_thread (snd (main no_client_env fresh)) = None /\
  sends (w_trace (snd (main no_client_env fresh))) = [].
Proof.
  destruct (@client_failure_starts_nothing no_client_env demo_config fresh
              (Exn OSError "Name or service not known")
              eq_refl eq_refl eq_refl)
    as (Ho & _ & _ & Hth & Hs).
  split; [exact Ho|]. split; [exact Hth|exact Hs].
Defined.

(** ** Interrupts and the outcomes of [main] *)

Lemma for_each_app {A : Type} (l1 l2 : list A) (body : A -> IO unit) (w : world) :
  for_each (l1 ++ l2) body w = (for_each l1 body ;; for_each l2 body) w.
Proof.
  revert w. induction l1 as [|a l1 IH]; intros w.
  - reflexivity.
  - simpl app. simpl for_each. unfold bind.
    destruct (body a w) as [[[]|x] w1]; [|reflexivity].
    rewrite IH. reflexivity.
Qed.

Lemma emit_once_cut_short (e : env) (c : Config) (i : nat) (w : world) (x : exn) :
  env_send e i = Some x -> is_Exception x = false ->
  emit_once e c i w =
  (Raised x, add_events [announce c i; send_event e i] w).
Proof.
  intros Hs Hx. unfold emit_once, send_message, logger, sleep, try_except,
    bind, emit, fallible, add_events, announce, send_event.
  rewrite Hs. simpl. rewrite Hx. now rewrite <- app_assoc.
Qed.

Lemma range_split (n : Z) (k : nat) :
  (k < Z.to_nat n)%nat ->
  range n = seq 0 k ++ k :: seq (S k) (Z.to_nat n - S k).
Proof.
  intros Hk. unfold range.
  replace (Z.to_nat n) with (k + S (Z.to_nat n - S k))%nat at 1 by lia.
  rewrite seq_app. reflexivity.
Qed.

Lemma emitter_loop_cut_short (e : env) (c : Config) (w : world) (k : nat)
    (x : exn) :
  (k < Z.to_nat (max_randomizations c))%nat ->
  (forall i y, (i < k)%nat -> env_send e i = Some y -> is_Exception y = true) ->
  env_send e k = Some x -> is_Exception x = false ->
  emitter_loop e c w =
  (Raised x,
   add_events (flat_map (iteration_events e c) (seq 0 k) ++
               [announce c k; send_event e k]) w).
Proof.
  intros Hk Hbefore Hs Hx. unfold emitter_loop.
  rewrite (@range_split _ k Hk), for_each_app. unfold bind at 1.
  rewrite for_each_emit.
  - simpl for_each. unfold bind at 1.
    rewrite (@emit_once_cut_short e c k _ x Hs Hx). now rewrite add_events_app.
  - intros i y Hi. apply Hbefore. apply in_seq in Hi. lia.
Qed.

Lemma sleeps_of_iterations (e : env) (c : Config) (l : list nat) (ms : Z) :
  In (EvSleep ms) (flat_map (iteration_events e c) l) -> ms = 10%Z.
Proof.
  intros Hin. apply in_flat_map in Hin as (i & _ & Hin).
  unfold iteration_events in Hin. simpl in Hin.
  destruct Hin as [Hin|[Hin|Hin]]; try discriminate.
  destruct (env_send e i); simpl in Hin; destruct Hin as [Hin|[]];
    try discriminate.
  now injection Hin.
Qed.

(** An interrupt during a send stops the emitter on the spot.  When the
    send of iteration k raises outside Exception, the sends after it are
    never attempted, there is no drain wait and no completion record; the
    listener thread, started before the loop, is left as it is.  A
    KeyboardInterrupt is logged at INFO level as a shutdown and main
    returns normally; any other such exception leaves main unlogged. *)
Theorem interrupt_stops_the_emitter
    (e : env) (config : Config) (w : world) (k : nat) (x : exn) :
  env_config e = Returned config -> env_client e = None ->
  (k < Z.to_nat (max_randomizations config))%nat ->
  (forall i y, (i < k)%nat -> env_send e i = Some y -> is_Exception y = true) ->
  env_send e k = Some x -> is_Exception x = false ->
  let emitted :=
    flat_map (iteration_events e config) (seq 0 k) ++
    [announce config k; send_event e k] in
  fst (main e w) = (if is_KeyboardInterrupt x then Returned tt else Raised x) /\
  w_trace (snd (main e w)) =
    w_trace w ++ emitted ++
    (if is_KeyboardInterrupt x
     then [EvLog INFO "Shutting down application..." []] else []) /\
  sends emitted = map (send_event e) (seq 0 (S k)) /\
  (forall ms, In (EvSleep ms) emitted -> ms = 10%Z) /\
  w_thread (snd (main e w)) = Some (listener_thread e config w).
Proof.
  intros Hc Hcl Hk Hbefore Hs Hx emitted.
  assert (Hrun : main e w =
            (if is_KeyboardInterrupt x then Returned tt else Raised x,
             {| w_trace :=
                  w_trace w ++ emitted ++
                  (if is_KeyboardInterrupt x
                   then [EvLog INFO "Shutting down application..." []]
                   else []);
                w_file := w_file w; w_now := w_now w;
                w_io_faults := w_io_faults w;
                w_thread := Some (listener_thread e config w) |})).
  { unfold main, try_except, load_config.
    unfold bind at 1. unfold try_except. rewrite Hc. cbn [ret].
    unfold bind at 1. rewrite Hcl. cbn [fallible ret].
    unfold bind at 1. rewrite Thread_start_run.
    unfold bind at 1.
    rewrite (@emitter_loop_cut_short e config _ k x Hk Hbefore Hs Hx).
    fold emitted. rewrite Hx.
    destruct (is_KeyboardInterrupt x); unfold logger, emit, add_events; simpl.
    - now rewrite <- app_assoc.
    - now rewrite app_nil_r. }
  rewrite Hrun. cbn [fst snd w_trace w_thread].
  split; [reflexivity|]. split; [reflexivity|]. split.
  - unfold emitted. rewrite sends_app, sends_iterations.
    rewrite seq_S. rewrite map_app. reflexivity.
  - split; [|reflexivity].
    intros ms Hin. unfold emitted in Hin. apply in_app_or in Hin as [Hin|Hin].
    + now apply sleeps_of_iterations in Hin.
    + simpl in Hin. destruct Hin as [Hin|[Hin|[]]]; discriminate.
Qed.

Lemma interrupt_stops_the_emitter_witness :
  fst (main interrupted_env fresh) = Returned tt /\
  w_trace (snd (main interrupted_env fresh)) =
    [EvLog INFO "Sending Randomization Command to Max... (iteration %d/%d)"
       [LVal (PInt 1); LVal (PInt 3)];
     EvSend "/random" 100; EvSleep 10;
     EvLog INFO "Sending Randomization Command to Max... (iteration %d/%d)"
       [LVal (PInt 2); LVal (PInt 3)];
     EvSend "/random" 37;
     EvLog INFO "Shutting down application..." []].
Proof.
  assert (Hk : (1 < Z.to_nat (max_randomizations demo_config))%nat)
    by (simpl; lia).
  assert (Hbefore : forall i y, (i < 1)%nat ->
             env_send interrupted_env i = Some y -> is_Exception y = true).
  { intros i y Hi. replace i with 0%nat by lia. discriminate. }
  destruct (@interrupt_stops_the_emitter interrupted_env demo_config fresh 1
              (Exn KeyboardInterrupt "") eq_refl eq_refl Hk Hbefore
              eq_refl eq_refl)
    as (Ho & Ht & _).
  split; [exact Ho|exact Ht].
Defined.

Lemma bind_returned {A B : Type} (m : IO A) (k : A -> IO B) (w w' : world)
    (b : B) :
  bind m k w = (Returned b, w') ->
  exists a w1, m w = (Returned a, w1) /\ k a w1 = (Returned b, w').
Proof.
  unfold bind. destruct (m w) as [[a|x] w1]; intros H.
  - exists a, w1. now split.
  - discriminate.
Qed.

(** How main can end, in every environment.  A KeyboardInterrupt never
    leaves main: it is turned into a normal return.  When main returns,
    its last record is the completion record or the shutdown record; an
    Exception that leaves main has been logged as an application error
    just before. *)
Theorem main_outcomes (e : env) (w : world) :
  match fst (main e w) with
  | Returned _ =>
      exists tr,
        w_trace (snd (main e w)) = tr ++ [EvLog INFO "Done." []] \/
        w_trace (snd (main e w)) =
          tr ++ [EvLog INFO "Shutting down application..." []]
  | Raised x =>
      is_KeyboardInterrupt x = false /\
      (is_Exception x = true ->
       exists tr,
         w_trace (snd (main e w)) =
           tr ++ [EvLog ERROR "Application error: %s" [LExn x]])
  end.
Proof.
  unfold main, try_except.
  match goal with |- context [bind (load_config e) ?k w] =>
    destruct (bind (load_config e) k w) as [[u|x] w'] eqn:Hbody
  end.
  - cbn [fst snd].
    apply bind_returned in Hbody as (config & w1 & _ & Hbody).
    apply bind_returned in Hbody as (u1 & w2 & _ & Hbody).
    apply bind_returned in Hbody as (u2 & w3 & _ & Hbody).
    apply bind_returned in Hbody as (u3 & w4 & _ & Hbody).
    apply bind_returned in Hbody as (u4 & w5 & _ & Hbody).
    apply bind_returned in Hbody as (u5 & w6 & _ & Hbody).
    unfold logger, emit in Hbody. cbv beta in Hbody.
    inversion Hbody; subst. cbn [w_trace].
    exists (w_trace w6). left. reflexivity.
  - destruct (is_KeyboardInterrupt x) eqn:Hki.
    + unfold logger, emit. cbn [fst snd w_trace].
      exists (w_trace w'). right. reflexivity.
    + destruct (is_Exception x) eqn:Hx.
      * unfold logger, emit, bind, raise. cbn [fst snd w_trace].
        split; [exact Hki|]. intros _. exists (w_trace w'). reflexivity.
      * cbn [fst snd]. split; [exact Hki|].
        intros H. rewrite Hx in H. discriminate H.
Qed.

(** ** The time the emitter spends waiting *)

Lemma total_sleep_app (t t' : list event) :
  total_sleep (t ++ t') = (total_sleep t + total_sleep t')%Z.
Proof.
  induction t as [|ev t IH]; simpl; [reflexivity|].
  destruct ev; rewrite IH; lia.
Qed.

Lemma total_sleep_iterations (e : env) (c : Config) (l : list nat) :
  total_sleep (flat_map (iteration_events e c) l) =
  (10 * Z.of_nat (List.length (delivered e l)))%Z.
Proof.
  induction l as [|i l IH]; [reflexivity|].
  cbn [flat_map]. rewrite total_sleep_app, IH.
  unfold iteration_events, delivered. cbn [filter].
  destruct (env_send e i); unfold send_event;
    cbn [total_sleep app List.length]; lia.
Qed.

(** The waits of a run add up to 10 ms for each send that went through,
    and 500 ms at the end: sends that fail cost no waiting time, so a run
    in which every send fails waits 500 ms in all. *)
Theorem waiting_time_of_a_run (e : env) (config : Config) (w : world) :
  env_config e = Returned config -> env_client e = None ->
  uninterrupted e config ->
  total_sleep (w_trace (snd (main e w))) =
  (total_sleep (w_trace w) +
   10 * Z.of_nat (List.length
                    (delivered e (range (max_randomizations config)))) +
   500)%Z.
Proof.
  intros Hc Hcl Hu. rewrite (main_run w Hc Hcl Hu). cbn [snd w_trace].
  rewrite !total_sleep_app, total_sleep_iterations.
  change (total_sleep drain_events) with 500%Z. lia.
Qed.

Lemma waiting_time_of_a_run_witness :
  total_sleep (w_trace (snd (main (env_of demo_config None second_send_fails)
                               fresh))) = 520%Z /\
  total_sleep (w_trace (snd (main lone_failure_env fresh))) = 500%Z.
Proof.
  assert (Hu : uninterrupted lone_failure_env (with_randomizations 1)).
  { intros i x _ H. injection H as <-. reflexivity. }
  split.
  - rewrite (@waiting_time_of_a_run (env_of demo_config None second_send_fails)
               demo_config fresh eq_refl eq_refl
               (second_send_fails_uninterrupted demo_config)).
    reflexivity.
  - rewrite (@waiting_time_of_a_run lone_failure_env (with_randomizations 1)
               fresh eq_refl eq_refl Hu).
    reflexivity.
Defined.

(** ** The two paths together *)

(** A whole run.  When the configuration loads, the client is built, the
    listener binds, the log file starts empty and every message received
    is a message of the route handled without a file fault, then at the
    end of main the listener has left in the file the header and one row
    per message, in the order of arrival, while main has attempted its
    max_randomizations sends and returned. *)
Theorem run_logs_every_message (e : env) (config : Config) (w : world) :
  env_config e = Returned config -> env_client e = None ->
  uninterrupted e config ->
  env_bind e = None ->
  w_file w = [] -> env_inbound e <> [] -> Forall appended_ok (env_inbound e) ->
  fst (main e w) = Returned tt /\
  option_map th_file (w_thread (snd (main e w))) =
    Some (header_line config :: map (line_of config) (env_inbound e)) /\
  option_map th_outcome (w_thread (snd (main e w))) = Some (Returned tt) /\
  List.length (sends (w_trace (snd (main e w)))) =
    (List.length (sends (w_trace w)) + Z.to_nat (max_randomizations config))%nat.
Proof.
  intros Hc Hcl Hu Hb He Hne Hok.
  rewrite (main_run w Hc Hcl Hu). cbn [fst snd w_thread w_trace option_map].
  split; [reflexivity|].
  pose proof (@bound_listener_returns e config w Hb) as Ho.
  split; [|split; [now rewrite Ho|]].
  - f_equal. unfold listener_thread.
    rewrite (@start_osc_server_bound e config _ Hb).
    match goal with |- context [serve_forever config (env_inbound e) ?w0] =>
      pose proof (@serve_from_empty config (env_inbound e) w0 He Hne Hok)
        as Hfile;
      destruct (serve_forever config (env_inbound e) w0) as [o w']
    end.
    exact Hfile.
  - rewrite !sends_app, sends_iterations, !length_app, length_map, range_length.
    simpl. lia.
Qed.

Lemma run_logs_every_message_witness :
  option_map th_file (w_thread (snd (main scenario_env fresh))) =
    Some [Line HeaderLine [PStr "Timestamp"; PStr "freq"; PStr "amp"];
          Line DataLine [PStr noon; PInt 440; PFloat 1061997773]] /\
  List.length (sends (w_trace (snd (main scenario_env fresh)))) = 3.
Proof.
  assert (Hu : uninterrupted scenario_env demo_config).
  { intros i x _ H. discriminate H. }
  assert (Hne : env_inbound scenario_env <> []) by discriminate.
  assert (Hok : Forall appended_ok (env_inbound scenario_env)).
  { repeat constructor. }
  destruct (@run_logs_every_message scenario_env demo_config fresh
              eq_refl eq_refl Hu eq_refl eq_refl Hne Hok)
    as (_ & Hf & _ & Hs).
  split; [exact Hf|exact Hs].
Defined.
